(** * clawtan CLI: turn synchronisation and briefing engine

    A shallow embedding of the core of [src/clawtan/cli.py]: the state
    extraction functions, the text formatters, the roll-result reporter
    and the poll loop of [cmd_wait], together with the properties the
    specification states about them.

    Conventions of the embedding.
    - A JSON document is a value of [json].  Numbers are integers (the
      protocol carries counts, node ids and coordinates); a Python [str]
      is a [string] whose characters are code points below 256.
    - [print] appends one entry to an output log; the entry records the
      stream and the text handed to [print] (without the final newline).
    - A Python exception that the code does not catch is the [Raise]
      outcome of the [result] monad; in the poll loop it is the
      [Uncaught] way an iteration ends.
    - The server and the clock are a script of poll observations that
      the loop consumes, one per iteration. *)

From Stdlib Require Import ZArith Ascii String List Lia.
From stdpp Require Import base option list gmap strings pretty sorting.

Local Open Scope string_scope.
Local Open Scope list_scope.
Local Open Scope Z_scope.
Local Set Warnings "-register-all,-clear-no-such-hyp".

(* ================================================================== *)
(** ** JSON values and the Python built-ins the code applies to them   *)
(* ================================================================== *)

Module Py.

(** What [json.loads] returns. *)
Inductive json : Type :=
| JNull
| JBool (b : bool)
| JInt (z : Z)
| JStr (s : string)
| JList (l : list json)
| JObj (kvs : list (string * json)).

(** Uncaught Python exceptions and the outcome of a computation that
    may raise one. *)
Inductive exn : Type := TypeError.

Inductive result (A : Type) : Type :=
| Ok (a : A)
| Raise (e : exn).
Arguments Ok {A} a.
Arguments Raise {A} e.

Definition bind {A B} (m : result A) (k : A → result B) : result B :=
  match m with
  | Ok a => k a
  | Raise e => Raise e
  end.

(** Characters that cannot be written inside a literal. *)
Definition dq : string := String "034"%char EmptyString.
Definition bs : string := String "092"%char EmptyString.
Definition nl : string := String "010"%char EmptyString.

(** [str.join]. *)
Definition join (sep : string) (parts : list string) : string :=
  String.concat sep parts.

(** [len] of a [str], as an integer. *)
Definition len (s : string) : Z := Z.of_nat (String.length s).

(** Truth value of a JSON value: [None], [False], [0], the empty
    string, list and dict are false. *)
Definition truthy (v : json) : bool :=
  match v with
  | JNull => false
  | JBool b => b
  | JInt z => negb (z =? 0)
  | JStr s => negb (String.eqb s "")
  | JList l => match l with [] => false | _ => true end
  | JObj kvs => match kvs with [] => false | _ => true end
  end.

Definition hex_digit (n : N) : ascii :=
  match n with
  | 0 => "0" | 1 => "1" | 2 => "2" | 3 => "3" | 4 => "4" | 5 => "5"
  | 6 => "6" | 7 => "7" | 8 => "8" | 9 => "9" | 10 => "a" | 11 => "b"
  | 12 => "c" | 13 => "d" | 14 => "e" | _ => "f"
  end%N%char.

(** The two lower-case hexadecimal digits of a code point below 256. *)
Definition hex2 (c : ascii) : string :=
  let n := N_of_ascii c in
  String (hex_digit (n / 16)) (String (hex_digit (n mod 16)) EmptyString).

Definition code (c : ascii) : N := N_of_ascii c.

(** [json.dumps] escapes (with [ensure_ascii], the default): the
    short escapes, and [\u00XX] for everything outside [' '..'~']. *)
Definition dumps_char (c : ascii) : string :=
  let n := code c in
  if (n =? 34)%N then bs +:+ dq
  else if (n =? 92)%N then bs +:+ bs
  else if (n =? 10)%N then bs +:+ "n"
  else if (n =? 13)%N then bs +:+ "r"
  else if (n =? 9)%N then bs +:+ "t"
  else if (n =? 8)%N then bs +:+ "b"
  else if (n =? 12)%N then bs +:+ "f"
  else if ((32 <=? n) && (n <=? 126))%N then String c EmptyString
  else bs +:+ "u00" +:+ hex2 c.

Fixpoint dumps_chars (s : string) : string :=
  match s with
  | EmptyString => EmptyString
  | String c s' => dumps_char c +:+ dumps_chars s'
  end.

Definition dumps_str (s : string) : string := dq +:+ dumps_chars s +:+ dq.

(** [json.dumps(v, separators=(",", ":"))]. *)
Fixpoint dumps (v : json) : string :=
  match v with
  | JNull => "null"
  | JBool true => "true"
  | JBool false => "false"
  | JInt z => pretty z
  | JStr s => dumps_str s
  | JList l => "[" +:+ join "," (map dumps l) +:+ "]"
  | JObj kvs =>
      "{" +:+ join "," (map (λ kv, dumps_str (fst kv) +:+ ":" +:+ dumps (snd kv)) kvs)
          +:+ "}"
  end.

(** [repr] of a [str]: single quotes unless the text holds a single
    quote and no double quote; backslash, the chosen quote, tab,
    newline and carriage return are escaped; other characters that
    are not printable are written [\xNN]. *)
Fixpoint contains (c : ascii) (s : string) : bool :=
  match s with
  | EmptyString => false
  | String d s' => Ascii.eqb c d || contains c s'
  end.

Definition printable (c : ascii) : bool :=
  let n := code c in
  (((32 <=? n) && (n <=? 126)) || ((161 <=? n) && negb (n =? 173)))%N.

Definition repr_char (quote : ascii) (c : ascii) : string :=
  let n := code c in
  if (n =? 92)%N then bs +:+ bs
  else if Ascii.eqb c quote then bs +:+ String c EmptyString
  else if (n =? 9)%N then bs +:+ "t"
  else if (n =? 10)%N then bs +:+ "n"
  else if (n =? 13)%N then bs +:+ "r"
  else if printable c then String c EmptyString
  else bs +:+ "x" +:+ hex2 c.

Fixpoint repr_chars (quote : ascii) (s : string) : string :=
  match s with
  | EmptyString => EmptyString
  | String c s' => repr_char quote c +:+ repr_chars quote s'
  end.

Definition repr_str (s : string) : string :=
  let quote :=
    if contains "039"%char s && negb (contains "034"%char s)
    then "034"%char else "039"%char in
  String quote (repr_chars quote s) +:+ String quote EmptyString.

(** [repr] of a JSON value. *)
Fixpoint repr (v : json) : string :=
  match v with
  | JNull => "None"
  | JBool true => "True"
  | JBool false => "False"
  | JInt z => pretty z
  | JStr s => repr_str s
  | JList l => "[" +:+ join ", " (map repr l) +:+ "]"
  | JObj kvs =>
      "{" +:+ join ", " (map (λ kv, repr_str (fst kv) +:+ ": " +:+ repr (snd kv)) kvs)
          +:+ "}"
  end.

(** [str] of a JSON value, as an f-string placeholder renders it: a
    [str] is itself, everything else is its [repr]. *)
Definition str (v : json) : string :=
  match v with
  | JStr s => s
  | _ => repr v
  end.

(** [sum] of a list: integers (and booleans, which are integers) add
    up from [0]; any other element is a [TypeError]. *)
Definition as_int (v : json) : result Z :=
  match v with
  | JInt z => Ok z
  | JBool b => Ok (if b then 1 else 0)
  | _ => Raise TypeError
  end.

Fixpoint sum_from (acc : Z) (l : list json) : result Z :=
  match l with
  | [] => Ok acc
  | v :: l' => bind (as_int v) (λ z, sum_from (acc + z) l')
  end.

Definition sum (l : list json) : result Z := sum_from 0 l.

(** A slice [l[n:]]: a negative start counts from the end. *)
Definition slice_from {A} (n : Z) (l : list A) : list A :=
  if n <? 0 then drop (Z.to_nat (Z.max 0 (Z.of_nat (length l) + n))) l
  else drop (Z.to_nat n) l.

End Py.
Export Py.

(** [result] is a monad; stdpp's [x ← m; k] notation sequences it. *)
#[global] Instance result_ret : MRet result := λ A a, Ok a.
#[global] Instance result_bind : MBind result := λ A B k m, bind m k.

(* ================================================================== *)
(** ** Constants and the output log                                    *)
(* ================================================================== *)

Definition RESOURCES : list string :=
  ["DRIFTWOOD"; "CORAL"; "SHRIMP"; "KELP"; "PEARL"].

Definition DEV_CARDS : list string :=
  ["LOBSTER_GUARD"; "BOUNTIFUL_HARVEST"; "TIDAL_MONOPOLY";
   "CURRENT_BUILDING"; "TREASURE_CHEST"].

(** One entry per call of [print] (on standard output, or on standard
    error with [file=sys.stderr]) and per call of [time.sleep]. *)
Inductive event : Type :=
| Stdout (text : string)
| Stderr (text : string)
| Sleep (seconds : Z).

(** [_header] and [_section]. *)
Definition _header (title : string) : list event :=
  [Stdout (nl +:+ "=== " +:+ title +:+ " ===")].

Definition _section (title : string) : list event :=
  [Stdout (nl +:+ "--- " +:+ title +:+ " ---")].

(* ================================================================== *)
(** ** State extraction                                                *)
(* ================================================================== *)

(** The full game-state document, with the fields the functions below
    read.  [player_state] is the flat [P{i}_FIELD] table; its values
    are integers, a JSON boolean being the integer 1 or 0 as in Python.
    A key absent from the document is an empty list or an empty table,
    which is what [state.get(key, default)] yields. *)
Record game_state : Type := {
  colors : list string;
  player_state : gmap string Z;
  action_records : list json;
}.

(** [ps.get(key, 0)] and [bool(ps.get(key, False))]. *)
Definition ps_get (ps : gmap string Z) (key : string) : Z :=
  default 0 (ps !! key).

Definition ps_flag (ps : gmap string Z) (key : string) : bool :=
  negb (ps_get ps key =? 0).

(** [colors.index(color)]: the first position holding [color];
    [None] stands for the [ValueError]. *)
Fixpoint list_index (colors : list string) (color : string) : option nat :=
  match colors with
  | [] => None
  | c :: colors' =>
      if String.eqb c color then Some O
      else S <$> list_index colors' color
  end.

Definition _find_idx (colors : list string) (color : string) : Z :=
  match list_index colors color with
  | Some i => Z.of_nat i
  | None => -1
  end.

(** The prefix [f"P{idx}_"]. *)
Definition player_prefix (idx : Z) : string := "P" +:+ pretty idx +:+ "_".

Record player_status : Type := {
  status_color : string;
  vp : Z;
  resources : list (string * Z);
  total_resources : Z;
  dev_cards : list (string * Z);
  buildings : list (string * Z);
  longest_road : bool;
  largest_army : bool;
  road_length : Z;
  knights : Z;
  has_rolled : bool;
  played_dev : bool;
}.

(** The two loops of [_my_status]: the resource table with its running
    total, and the development cards held (positive counts only). *)
Definition my_resources (ps : gmap string Z) (p : string)
  : list (string * Z) * Z :=
  fold_left
    (λ '(resources, total) r,
       let c := ps_get ps (p +:+ r +:+ "_IN_HAND") in
       (resources ++ [(r, c)], total + c))
    RESOURCES ([], 0).

Definition my_dev_cards (ps : gmap string Z) (p : string)
  : list (string * Z) :=
  fold_left
    (λ dev d,
       let c := ps_get ps (p +:+ d +:+ "_IN_HAND") in
       if 0 <? c then dev ++ [(d, c)] else dev)
    DEV_CARDS [].

Definition _my_status (state : game_state) (color : string)
  : option player_status :=
  let ps := player_state state in
  let idx := _find_idx (colors state) color in
  if idx <? 0 then None
  else
    let p := player_prefix idx in
    let '(resources, total) := my_resources ps p in
    Some {|
      status_color := color;
      vp := ps_get ps (p +:+ "TREASURE_CHESTS");
      resources := resources;
      total_resources := total;
      dev_cards := my_dev_cards ps p;
      buildings :=
        [("TIDE_POOLS", ps_get ps (p +:+ "TIDE_POOLS_AVAILABLE"));
         ("REEFS", ps_get ps (p +:+ "REEFS_AVAILABLE"));
         ("CURRENTS", ps_get ps (p +:+ "CURRENTS_AVAILABLE"))];
      longest_road := ps_flag ps (p +:+ "HAS_ROAD");
      largest_army := ps_flag ps (p +:+ "HAS_ARMY");
      road_length := ps_get ps (p +:+ "LONGEST_ROAD_LENGTH");
      knights := ps_get ps (p +:+ "PLAYED_LOBSTER_GUARD");
      has_rolled := ps_flag ps (p +:+ "HAS_ROLLED");
      played_dev := ps_flag ps (p +:+ "HAS_PLAYED_DEVELOPMENT_CARD_IN_TURN");
    |}.

(** [enumerate]. *)
Fixpoint enumerate_from {A} (i : nat) (l : list A) : list (nat * A) :=
  match l with
  | [] => []
  | x :: l' => (i, x) :: enumerate_from (S i) l'
  end.

Definition enumerate {A} (l : list A) : list (nat * A) := enumerate_from 0 l.

(** [_all_player_resources]: [{color: {resource: count}}]; a colour
    listed twice keeps the table of its last seat. *)
Definition resource_table (ps : gmap string Z) (p : string) : gmap string Z :=
  fold_left (λ tbl r, <[r := ps_get ps (p +:+ r +:+ "_IN_HAND")]> tbl)
            RESOURCES ∅.

Definition _all_player_resources (state : game_state)
  : gmap string (gmap string Z) :=
  fold_left
    (λ result '(i, c),
       <[c := resource_table (player_state state)
                             (player_prefix (Z.of_nat i))]> result)
    (enumerate (colors state)) ∅.

(* ================================================================== *)
(** ** Text formatters                                                 *)
(* ================================================================== *)

(** [v == s] for a JSON value [v] and a [str] [s]. *)
Definition eq_str (v : json) (s : string) : bool :=
  match v with
  | JStr s' => String.eqb s' s
  | _ => false
  end.

Definition is_None (v : json) : bool :=
  match v with
  | JNull => true
  | _ => false
  end.

(** Lists and dicts cannot be members of a [set] or keys of a [dict]. *)
Definition hashable (v : json) : bool :=
  match v with
  | JList _ | JObj _ => false
  | _ => true
  end.

(** Equality of hashable values, as [set] and [dict] decide it
    ([True == 1] and [False == 0]). *)
Definition key_eqb (k1 k2 : json) : bool :=
  match k1, k2 with
  | JNull, JNull => true
  | JStr s1, JStr s2 => String.eqb s1 s2
  | (JInt _ | JBool _), (JInt _ | JBool _) =>
      match as_int k1, as_int k2 with
      | Ok z1, Ok z2 => z1 =? z2
      | _, _ => false
      end
  | _, _ => false
  end.

(** [s.add(v)] on a set kept as a list without repetition. *)
Definition set_add (s : list json) (v : json) : list json :=
  if existsb (key_eqb v) s then s else s ++ [v].

(** [', '.join(sorted(s))]: defined when every member is a [str]
    (sorting mixed types, or joining a value that is not a [str], is
    a [TypeError]). *)
Definition as_strs (s : list json) : option (list string) :=
  mapM (λ v, match v with JStr c => Some c | _ => None end) s.

Definition sorted (ss : list string) : list string := merge_sort String.le ss.

Definition join_sorted (s : list json) : result string :=
  match as_strs s with
  | Some ss => Ok (join ", " (sorted ss))
  | None => Raise TypeError
  end.

(** The static usage hints. *)
Definition _ACTION_HINTS : gmap string string :=
  list_to_map [
    ("RELEASE_CATCH",
     "Discard cards. Run with no value to discard randomly:" +:+ nl +:+
     "    CLI: clawtan act RELEASE_CATCH" +:+ nl +:+
     "    Or pick specific cards (freqdeck=[DRIFTWOOD,CORAL,SHRIMP,KELP,PEARL]):" +:+ nl +:+
     "    CLI: clawtan act RELEASE_CATCH '[1,0,0,1,0]'");
    ("MOVE_THE_KRAKEN",
     "Move robber: value = [coordinate, victim_color_or_null, null]." +:+ nl +:+
     "    CLI: clawtan act MOVE_THE_KRAKEN '[[0,1,-1]," +:+ dq +:+ "BLUE" +:+ dq +:+ ",null]'");
    ("OCEAN_TRADE",
     "Maritime trade: give 4 (or 3/2 with port) of one resource, receive 1." +:+ nl +:+
     "    Value = list of resources: first N are given, last 1 is received." +:+ nl +:+
     "    CLI: clawtan act OCEAN_TRADE '[" +:+ dq +:+ "KELP" +:+ dq +:+ "," +:+ dq +:+ "KELP" +:+ dq
       +:+ "," +:+ dq +:+ "KELP" +:+ dq +:+ "," +:+ dq +:+ "KELP" +:+ dq +:+ ","
       +:+ dq +:+ "SHRIMP" +:+ dq +:+ "]'");
    ("PLAY_BOUNTIFUL_HARVEST",
     "Year of Plenty: pick 2 free resources." +:+ nl +:+
     "    CLI: clawtan act PLAY_BOUNTIFUL_HARVEST '[" +:+ dq +:+ "DRIFTWOOD" +:+ dq +:+ ","
       +:+ dq +:+ "CORAL" +:+ dq +:+ "]'")
  ].

(** [_ACTION_HINTS.get(atype)]: only a [str] can be one of its keys. *)
Definition hint_of (atype : json) : option string :=
  match atype with
  | JStr t => _ACTION_HINTS !! t
  | _ => None
  end.

(** A fold whose step may raise. *)
Fixpoint foldM {A B} (f : A → B → result A) (acc : A) (l : list B) : result A :=
  match l with
  | [] => Ok acc
  | x :: l' => acc' ← f acc x; foldM f acc' l'
  end.

(** First loop of [_print_actions]: an action that is a list of more
    than one element, with a true first slot different from a true
    [my_color], belongs to another colour; everything else is mine. *)
Definition other_color (my_color : option string) (action_color : json) : bool :=
  match my_color with
  | Some mc =>
      negb (String.eqb mc "") && truthy action_color
      && negb (eq_str action_color mc)
  | None => false
  end.

Definition split_action (my_color : option string)
    (acc : list json * list json) (a : json) : result (list json * list json) :=
  let '(my_actions, other_colors) := acc in
  match a with
  | JList (action_color :: _ :: _) =>
      if other_color my_color action_color then
        if hashable action_color
        then Ok (my_actions, set_add other_colors action_color)
        else Raise TypeError
      else Ok (my_actions ++ [a], other_colors)
  | _ => Ok (my_actions ++ [a], other_colors)
  end.

Definition split_actions (actions : list json) (my_color : option string)
  : result (list json * list json) :=
  foldM (split_action my_color) ([], []) actions.

(** Second loop: [grouped[atype].append(val)] on an insertion-ordered
    [defaultdict(list)]. *)
Fixpoint group_append (grouped : list (json * list json)) (atype val : json)
  : list (json * list json) :=
  match grouped with
  | [] => [(atype, [val])]
  | (k, values) :: grouped' =>
      if key_eqb k atype then (k, values ++ [val]) :: grouped'
      else (k, values) :: group_append grouped' atype val
  end.

Definition action_type (a : json) : json :=
  match a with
  | JList (_ :: atype :: _) => atype
  | _ => JStr (str a)
  end.

Definition action_value (a : json) : json :=
  match a with
  | JList (_ :: _ :: val :: _) => val
  | _ => JNull
  end.

Definition group_action (grouped : list (json * list json)) (a : json)
  : result (list (json * list json)) :=
  let atype := action_type a in
  if hashable atype then Ok (group_append grouped atype (action_value a))
  else Raise TypeError.

(** Body of the third loop: what is printed for one group. *)
Definition options_line (atype : json) (values : list json) : event :=
  Stdout ("  " +:+ str atype +:+ " (" +:+ pretty (Z.of_nat (length values))
          +:+ " options):").

Definition hint_line (hint : string) : event :=
  Stdout ("    (" +:+ hint +:+ ")").

Definition payload_line (f : string) : event := Stdout ("    " +:+ f).

Definition print_group (atype : json) (values : list json) : result (list event) :=
  let hint := hint_of atype in
  if forallb is_None values then
    Ok (Stdout ("  " +:+ str atype)
        :: match hint with Some h => [hint_line h] | None => [] end)
  else
    let formatted := map dumps values in
    match hint with
    | Some h =>
        Ok (options_line atype values :: hint_line h :: map payload_line formatted)
    | None =>
        let joined := join " | " formatted in
        match atype with
        | JStr t =>
            if len joined + len t + 4 <=? 120
            then Ok [Stdout ("  " +:+ t +:+ ": " +:+ joined)]
            else Ok (options_line atype values :: map payload_line formatted)
        | _ => Raise TypeError
        end
    end.

Fixpoint print_groups (grouped : list (json * list json)) : result (list event) :=
  match grouped with
  | [] => Ok []
  | (atype, values) :: grouped' =>
      out ← print_group atype values;
      out' ← print_groups grouped';
      Ok (out ++ out')
  end.

Definition _print_actions (actions : list json) (my_color : option string)
  : result (list event) :=
  '(my_actions, other_colors) ← split_actions actions my_color;
  match my_actions, other_colors with
  | [], _ :: _ =>
      waiting ← join_sorted other_colors;
      Ok (_section "Available Actions"
          ++ [Stdout ("  (none for you -- waiting on: " +:+ waiting +:+ ")")])
  | _, _ =>
      grouped ← foldM group_action [] my_actions;
      out ← print_groups grouped;
      match other_colors with
      | [] => Ok (_section "Available Actions" ++ out)
      | _ :: _ =>
          others ← join_sorted other_colors;
          Ok (_section "Available Actions" ++ out
              ++ [Stdout (nl +:+ "  (other players still need to act: "
                          +:+ others +:+ ")")])
      end
  end.

(** [_print_history]. *)
Definition history_line (r : json) : string :=
  match r with
  | JList (color :: action :: rest) =>
      let val :=
        match rest with
        | v :: _ => if is_None v then JStr "" else v
        | [] => JStr ""
        end in
      if negb (eq_str val "")
      then "  " +:+ str color +:+ ": " +:+ str action +:+ " " +:+ dumps val
      else "  " +:+ str color +:+ ": " +:+ str action
  | _ => "  " +:+ str r
  end.

Definition _print_history (records : list json) (since : Z) : list event :=
  let recent := slice_from since records in
  match recent with
  | [] => []
  | _ :: _ =>
      _section ("Recent Actions (" +:+ pretty (Z.of_nat (length recent))
                +:+ " moves)")
      ++ map (λ r, Stdout (history_line r)) recent
  end.

(* ================================================================== *)
(** ** Roll result                                                     *)
(* ================================================================== *)

(** The backward scan of [_print_roll_result], over [reversed(records)]:
    the value of the first record that is a list of at least two
    elements whose second is ["ROLL_THE_SHELLS"], [None] when that
    record has no third element or when no record matches. *)
Fixpoint scan_roll (reversed_records : list json) : json :=
  match reversed_records with
  | [] => JNull
  | r :: older =>
      match r with
      | JList (_ :: atype :: rest) =>
          if eq_str atype "ROLL_THE_SHELLS" then
            match rest with
            | roll_val :: _ => roll_val
            | [] => JNull
            end
          else scan_roll older
      | _ => scan_roll older
      end
  end.

Definition roll_line (records : list json) : result (list event) :=
  match scan_roll (rev records) with
  | JNull => Ok []
  | JList [a; b] =>
      total ← Py.sum [a; b];
      Ok [Stdout ("  Rolled: " +:+ str a +:+ " + " +:+ str b +:+ " = "
                  +:+ pretty total)]
  | roll_val => Ok [Stdout ("  Rolled: " +:+ str roll_val)]
  end.

(** [post.get(res, 0) - pre.get(res, 0)]. *)
Definition diff_of (pre post : gmap string Z) (res : string) : Z :=
  default 0 (post !! res) - default 0 (pre !! res).

(** The inner loop: the [gains] list of one player. *)
Definition gains_of (pre post : gmap string Z) : list string :=
  fold_left
    (λ gains res,
       let diff := diff_of pre post res in
       if 0 <? diff then gains ++ ["+" +:+ pretty diff +:+ " " +:+ res]
       else if diff <? 0 then gains ++ [pretty diff +:+ " " +:+ res]
       else gains)
    RESOURCES [].

(** The outer loop, carrying the lines printed so far and [any_gains]. *)
Definition distribute_step
    (pre_resources post_resources : gmap string (gmap string Z))
    (acc : list event * bool) (c : string) : list event * bool :=
  let '(printed, any_gains) := acc in
  let pre := default ∅ (pre_resources !! c) in
  let post := default ∅ (post_resources !! c) in
  match gains_of pre post with
  | [] => (printed, any_gains)
  | gains => (printed ++ [Stdout ("  " +:+ c +:+ ": " +:+ join ", " gains)], true)
  end.

Definition resources_distributed (state : game_state)
    (pre_resources : gmap string (gmap string Z)) : list event :=
  let post_resources := _all_player_resources state in
  let '(printed, any_gains) :=
    fold_left (distribute_step pre_resources post_resources)
              (colors state) ([], false) in
  _section "Resources Distributed" ++ printed
  ++ (if any_gains then [] else [Stdout "  No resources produced."]).

(** [_print_roll_result]; [pre_resources] is [None] or a dict, and
    [if pre_resources:] holds for a dict that is not empty. *)
Definition _print_roll_result (state : game_state)
    (pre_resources : option (gmap string (gmap string Z)))
  : result (list event) :=
  rolled ← roll_line (action_records state);
  Ok (rolled
      ++ match pre_resources with
         | Some pre =>
             if decide (pre = ∅) then [] else resources_distributed state pre
         | None => []
         end).

(* ================================================================== *)
(** ** The poll loop of [cmd_wait]                                     *)
(* ================================================================== *)

(** What one [_get] of the status endpoint yields: the status document
    (a dict); the [APIError] that [_req] raises for an HTTP error (its
    status code) and for a connection error (code 0); or any other
    exception, named by its class.  [_req] converts [HTTPError] and
    [URLError] only, so [json.loads(raw)] on a body that is not JSON
    ([JSONDecodeError]) and an error while the body is read leave it
    unconverted.  A body that parses to something other than an object
    belongs here as well: the first [status.get] of the iteration then
    raises [AttributeError], before anything is printed. *)
Inductive fetch : Type :=
| Fetched (status : gmap string json)
| APIError (code : Z) (detail : string)
| OtherError (exception : string).

(** One iteration as the environment decides it: the outcome of the
    status fetch, the reading of [time.monotonic()] when the iteration
    consults the clock, and the outcome of the best-effort fetch of the
    final state ([None] when it fails), used when the game is over. *)
Record poll : Type := {
  status_fetch : fetch;
  monotonic : Z;
  final_state : option game_state;
}.

(** [status.get(key)] and [status.get(key, "?")]. *)
Definition get (status : gmap string json) (key : string) : json :=
  default JNull (status !! key).

Definition get_or (status : gmap string json) (key dflt : string) : json :=
  default (JStr dflt) (status !! key).

(** How an iteration ends: [continue] / falling off the end of the
    body (with the new [phase_shown]), [break] (my turn), [return]
    (game over), [sys.exit(code)], or an exception that no handler of
    [cmd_wait] catches and that leaves the function. *)
Inductive control : Type :=
| Continue (phase_shown : option string)
| Break
| Return
| Exit (code : Z)
| Uncaught (exception : string).

Definition final_scores (winner : json) (final : option game_state) : list event :=
  match final with
  | Some state =>
      _section "Final Scores"
      ++ map (λ '(i, c),
                let vp := ps_get (player_state state)
                            ("P" +:+ pretty (Z.of_nat i) +:+ "_TREASURE_CHESTS") in
                let marker := if eq_str winner c then " <-- WINNER" else "" in
                Stdout ("  " +:+ c +:+ ": " +:+ pretty vp +:+ " VP" +:+ marker))
             (enumerate (colors state))
  | None => []
  end.

(** The progress message and the new [phase_shown]. *)
Definition progress (status : gmap string json) (phase_shown : option string)
  : list event * option string :=
  if negb (truthy (get status "started")) then
    let pj := get_or status "players_joined" "?" in
    let np := get_or status "num_players" "?" in
    if negb (bool_decide (phase_shown = Some "lobby")) then
      ([Stderr ("Waiting for players (" +:+ str pj +:+ "/" +:+ str np +:+ ")...")],
       Some "lobby")
    else ([], phase_shown)
  else
    if negb (bool_decide (phase_shown = Some "turn")) then
      let cur := get_or status "current_color" "?" in
      ([Stderr ("Waiting for your turn (current: " +:+ str cur +:+ ")...")],
       Some "turn")
    else ([], phase_shown).

Section WaitLoop.

Variable game_id : string.
(** [args.poll] and [time.monotonic() + args.timeout]. *)
Variable poll_interval : Z.
Variable deadline : Z.

(** The body of [while True].  The handler of the status fetch is
    [except APIError]: any other exception passes through it, so the
    iteration prints nothing, does not sleep and does not poll again. *)
Definition wait_iteration (phase_shown : option string) (p : poll)
  : list event * control :=
  match status_fetch p with
  | OtherError exception => ([], Uncaught exception)
  | APIError code detail =>
      if code =? 404 then
        ([Stderr ("ERROR: Game not found: " +:+ game_id)], Exit 1)
      else if deadline <=? monotonic p then
        ([Stderr ("ERROR: Timeout (" +:+ detail +:+ ")")], Exit 1)
      else ([Sleep poll_interval], Continue phase_shown)
  | Fetched status =>
      if truthy (get status "winning_color") then
        let winner := get status "winning_color" in
        (_header "GAME OVER"
         ++ [Stdout ("  Winner: " +:+ str winner)]
         ++ final_scores winner (final_state p),
         Return)
      else
        let '(notice, phase_shown') := progress status phase_shown in
        if truthy (get status "your_turn") then (notice, Break)
        else if deadline <=? monotonic p then
          (notice ++ [Stderr "ERROR: Timeout waiting for turn"], Exit 1)
        else (notice ++ [Sleep poll_interval], Continue phase_shown')
  end.

(** A run of the loop over a script of polls: the log, how the loop
    ended ([None] while it is still polling at the end of the script),
    and the polls it never asked for. *)
Record run : Type := {
  log : list event;
  ended : option control;
  unused : list poll;
}.

Fixpoint wait_loop (phase_shown : option string) (script : list poll) : run :=
  match script with
  | [] => {| log := []; ended := None; unused := [] |}
  | p :: script' =>
      match wait_iteration phase_shown p with
      | (out, Continue phase_shown') =>
          let r := wait_loop phase_shown' script' in
          {| log := out ++ log r; ended := ended r; unused := unused r |}
      | (out, stop) =>
          {| log := out; ended := Some stop; unused := script' |}
      end
  end.

(** [cmd_wait] enters the loop with [phase_shown = None]. *)
Definition cmd_wait_loop (script : list poll) : run := wait_loop None script.

End WaitLoop.

(* ================================================================== *)
(** * Vocabulary of the properties                                    *)
(* ================================================================== *)

(** Notions the statements below are phrased with, and the sample
    documents they are tried on. *)

(** The status of a seated player whose table holds no key at all. *)
Definition blank_status (color : string) : player_status := {|
  status_color := color;
  vp := 0;
  resources := map (λ r, (r, 0)) RESOURCES;
  total_resources := 0;
  dev_cards := [];
  buildings := [("TIDE_POOLS", 0); ("REEFS", 0); ("CURRENTS", 0)];
  longest_road := false;
  largest_army := false;
  road_length := 0;
  knights := 0;
  has_rolled := false;
  played_dev := false;
|}.

Definition two_seats : game_state :=
  {| colors := ["RED"; "BLUE"]; player_state := ∅; action_records := [] |}.

Definition sample_records : list json :=
  [JList [JStr "RED"; JStr "ROLL_THE_SHELLS"; JList [JInt 3; JInt 4]];
   JList [JStr "RED"; JStr "BUILD_TIDE_POOL"; JInt 12];
   JList [JStr "RED"; JStr "END_TIDE"; JNull]].

(** A record whose action type is the dice roll, as the scan tests it. *)
Definition is_roll (r : json) : bool :=
  match r with
  | JList (_ :: atype :: _) => eq_str atype "ROLL_THE_SHELLS"
  | _ => false
  end.

(** The report as the claim words it: the most recent roll record's
    value is shown as a sum when it is a two-element list and raw
    otherwise, also when the record carries no value. *)
Definition roll_line_as_claimed (records : list json) : result (list event) :=
  match find (λ r, bool_decide (is_roll r = true)) (rev records) with
  | None => Ok []
  | Some r =>
      match action_value r with
      | JList [a; b] =>
          total ← Py.sum [a; b];
          Ok [Stdout ("  Rolled: " +:+ str a +:+ " + " +:+ str b +:+ " = "
                      +:+ pretty total)]
      | roll_val => Ok [Stdout ("  Rolled: " +:+ str roll_val)]
      end
  end.

(** How one nonzero difference is shown: [+N KIND] for a gain of [N]
    and [-N KIND] for a loss of [N]. *)
Definition gain_text (diff : Z) (res : string) : string :=
  (if 0 <? diff then "+" +:+ pretty diff else "-" +:+ pretty (- diff))
  +:+ " " +:+ res.

(** The resource kinds of one player that changed. *)
Definition changed (pre post : gmap string Z) : list string :=
  filter (λ res, diff_of pre post res ≠ 0) RESOURCES.

(** The tables of one player before and after the roll. *)
Definition pre_of (pre_resources : gmap string (gmap string Z)) (c : string)
  : gmap string Z := default ∅ (pre_resources !! c).

Definition post_of (post_resources : gmap string (gmap string Z)) (c : string)
  : gmap string Z := default ∅ (post_resources !! c).

(** The line of a player with at least one changed resource kind. *)
Definition player_line (pre_resources post_resources : gmap string (gmap string Z))
    (c : string) : event :=
  let pre := pre_of pre_resources c in
  let post := post_of post_resources c in
  Stdout ("  " +:+ c +:+ ": "
          +:+ join ", " (map (λ res, gain_text (diff_of pre post res) res)
                             (changed pre post))).

(** The players with at least one changed resource kind, in seat order. *)
Definition movers (pre_resources post_resources : gmap string (gmap string Z))
    (players : list string) : list string :=
  filter (λ c, changed (pre_of pre_resources c) (post_of post_resources c) ≠ [])
         players.

Definition before_roll : game_state :=
  {| colors := ["RED"; "BLUE"];
     player_state := list_to_map [("P0_KELP_IN_HAND", 3)];
     action_records := [] |}.

Definition after_roll : game_state :=
  {| colors := ["RED"; "BLUE"];
     player_state :=
       list_to_map [("P0_KELP_IN_HAND", 2); ("P1_PEARL_IN_HAND", 1)];
     action_records :=
       [JList [JStr "RED"; JStr "ROLL_THE_SHELLS"; JList [JInt 3; JInt 4]]] |}.

(** A game document without players. *)
Definition no_players : game_state :=
  {| colors := []; player_state := ∅; action_records := [] |}.

(** An action descriptor that carries a colour other than [mc]: a list
    of more than one element whose first slot is a non-empty colour
    name different from [mc]. *)
Definition carries_other (mc : string) (a : json) : bool :=
  match a with
  | JList (JStr c :: _ :: _) => negb (String.eqb c "") && negb (String.eqb c mc)
  | _ => false
  end.

Definition color_of (a : json) : option string :=
  match a with
  | JList (JStr c :: _ :: _) => Some c
  | _ => None
  end.

(** A set of colour names, as [set_add] builds it. *)
Definition add_str (s : list string) (c : string) : list string :=
  if decide (c ∈ s) then s else s ++ [c].

(** The distinct colours the actions carry, in order of appearance. *)
Definition distinct_colors (actions : list json) : list string :=
  fold_left add_str (omap color_of actions) [].

(** An action of colour [mc], type [t] and payload [v]. *)
Definition mine (mc t : string) (v : json) : json := JList [JStr mc; JStr t; v].

(** The phase a fetched status puts the waiter in, and the notice that
    announces it. *)
Definition phase_of (status : gmap string json) : string :=
  if truthy (get status "started") then "turn" else "lobby".

Definition notice_text (status : gmap string json) : string :=
  if truthy (get status "started") then
    "Waiting for your turn (current: "
    +:+ str (get_or status "current_color" "?") +:+ ")..."
  else
    "Waiting for players (" +:+ str (get_or status "players_joined" "?")
    +:+ "/" +:+ str (get_or status "num_players" "?") +:+ ")...".

(** [str.startswith]. *)
Fixpoint starts_with (prefix text : string) : bool :=
  match prefix with
  | EmptyString => true
  | String a prefix' =>
      match text with
      | EmptyString => false
      | String b text' => Ascii.eqb a b && starts_with prefix' text'
      end
  end.

(** The phase a log entry announces, if it is a phase notice. *)
Definition notice_phase (e : event) : option string :=
  match e with
  | Stderr text =>
      if starts_with "Waiting for players (" text then Some "lobby"
      else if starts_with "Waiting for your turn (" text then Some "turn"
      else None
  | _ => None
  end.

(** No label repeats the one before it, the first not repeating [shown]. *)
Fixpoint alternating (shown : option string) (labels : list string) : Prop :=
  match labels with
  | [] => True
  | label :: labels' => shown ≠ Some label ∧ alternating (Some label) labels'
  end.

(** Sample polls: a fetched status document, a fetch that fails with an
    [APIError], and one whose answer is not JSON. *)
Definition answered (fields : list (string * json)) (now : Z) : poll :=
  {| status_fetch := Fetched (list_to_map fields);
     monotonic := now;
     final_state := None |}.

Definition failed (code : Z) (detail : string) (now : Z) : poll :=
  {| status_fetch := APIError code detail;
     monotonic := now;
     final_state := None |}.

Definition garbled (now : Z) : poll :=
  {| status_fetch := OtherError "JSONDecodeError";
     monotonic := now;
     final_state := None |}.

Definition in_lobby : list (string * json) :=
  [("started", JBool false); ("players_joined", JInt 1); ("num_players", JInt 2)].

Definition waiting_for (current : string) : list (string * json) :=
  [("started", JBool true); ("current_color", JStr current);
   ("your_turn", JBool false); ("winning_color", JNull)].

Definition my_turn (current : string) : list (string * json) :=
  [("started", JBool true); ("current_color", JStr current);
   ("your_turn", JBool true); ("winning_color", JNull)].

Definition won_by (winner : string) : list (string * json) :=
  [("started", JBool true); ("current_color", JStr winner);
   ("your_turn", JBool false); ("winning_color", JStr winner)].

(* ================================================================== *)
(** * Further functions of [cli.py]                                    *)
(* ================================================================== *)

(** ** Opponent summaries *)

(** One entry of the list [_opponents] returns. *)
Record opponent : Type := {
  o_color : string;
  o_vp : Z;
  o_cards : Z;
  o_dev_cards : Z;
  o_knights : Z;
  o_road_length : Z;
  o_tags : list string;
}.

(** [sum(ps.get(f"{p}{k}_IN_HAND", 0) for k in kinds)]. *)
Definition sum_in_hand (ps : gmap string Z) (p : string) (kinds : list string) : Z :=
  fold_left (λ acc k, acc + ps_get ps (p +:+ k +:+ "_IN_HAND")) kinds 0.

(** The [tags] list: [ps.get(key)] is true for a value other than 0. *)
Definition opponent_tags (ps : gmap string Z) (p : string) : list string :=
  (if ps_flag ps (p +:+ "HAS_ROAD") then ["longest_road"] else [])
  ++ (if ps_flag ps (p +:+ "HAS_ARMY") then ["largest_army"] else []).

(** The dict appended for seat [i] of colour [c]. *)
Definition opponent_summary (ps : gmap string Z) (i : nat) (c : string) : opponent :=
  let p := player_prefix (Z.of_nat i) in
  {| o_color := c;
     o_vp := ps_get ps (p +:+ "TREASURE_CHESTS");
     o_cards := sum_in_hand ps p RESOURCES;
     o_dev_cards := sum_in_hand ps p DEV_CARDS;
     o_knights := ps_get ps (p +:+ "PLAYED_LOBSTER_GUARD");
     o_road_length := ps_get ps (p +:+ "LONGEST_ROAD_LENGTH");
     o_tags := opponent_tags ps p |}.

Definition _opponents (state : game_state) (color : string) : list opponent :=
  fold_left
    (λ result '(i, c),
       if String.eqb c color then result
       else result ++ [opponent_summary (player_state state) i c])
    (enumerate (colors state)) [].

(** ** Status and opponent formatters *)

(** [_print_resources], on a dict kept in insertion order. *)
Definition _print_resources (res : list (string * Z)) : list event :=
  let parts := map (λ '(k, v), k +:+ ":" +:+ pretty v) res in
  let total := fold_left (λ acc '(_, v), acc + v) res 0 in
  [Stdout ("  " +:+ join " " parts +:+ " (total:" +:+ pretty total +:+ ")")].

(** [_print_my_status]. *)
Definition _print_my_status (status : player_status) : list event :=
  let line := "  " +:+ status_color status +:+ " | " +:+ pretty (vp status) +:+ " VP" in
  let tags :=
    (if longest_road status then ["longest_road"] else [])
    ++ (if largest_army status then ["largest_army"] else []) in
  let line :=
    match tags with
    | [] => line
    | _ => line +:+ " | " +:+ join ", " tags
    end in
  _section "Your Status" ++ [Stdout line]
  ++ _section "Resources" ++ _print_resources (resources status)
  ++ match dev_cards status with
     | [] => []
     | dev =>
         _section "Dev Cards"
         ++ [Stdout ("  " +:+ join " " (map (λ '(k, v), k +:+ ":" +:+ pretty v) dev))]
     end
  ++ _section "Buildings Available"
  ++ [Stdout ("  " +:+ join " " (map (λ '(k, v), k +:+ ":" +:+ pretty v)
                                        (buildings status)))].

(** The format [{s:<8s}]: left-justified in a field of 8 characters. *)
Definition ljust8 (s : string) : string :=
  s +:+ String.concat "" (replicate (8 - String.length s)%nat " ").

(** [_print_opponents]. *)
Definition opponent_line (o : opponent) : string :=
  let line :=
    "  " +:+ ljust8 (o_color o) +:+ " " +:+ pretty (o_vp o) +:+ "VP"
    +:+ "  " +:+ pretty (o_cards o) +:+ "cards"
    +:+ "  " +:+ pretty (o_dev_cards o) +:+ "dev"
    +:+ "  road:" +:+ pretty (o_road_length o)
    +:+ "  knights:" +:+ pretty (o_knights o) in
  match o_tags o with
  | [] => line
  | tags => line +:+ "  [" +:+ join ", " tags +:+ "]"
  end.

Definition _print_opponents (opponents : list opponent) : list event :=
  _section "Opponents" ++ map (λ o, Stdout (opponent_line o)) opponents.

(** ** Sample documents *)

(** A game where BLUE holds development cards. *)
Definition holding_cards : game_state :=
  {| colors := ["RED"; "BLUE"];
     player_state :=
       list_to_map [("P1_LOBSTER_GUARD_IN_HAND", 2); ("P1_TIDAL_MONOPOLY_IN_HAND", 0);
                    ("P1_TREASURE_CHEST_IN_HAND", 1); ("P0_LOBSTER_GUARD_IN_HAND", 5)];
     action_records := [] |}.

(** ** Vocabulary for runs of the poll loop *)

Definition is_sleep (e : event) : bool :=
  match e with
  | Sleep _ => true
  | _ => false
  end.

Definition is_stdout (e : event) : bool :=
  match e with
  | Stdout _ => true
  | _ => false
  end.

(** The calls of [time.sleep] a log records, in order, each with its
    duration. *)
Definition sleep_calls (log : list event) : list event :=
  filter (λ e, is_sleep e = true) log.

(** A poll that makes the loop stop: a 404, a fetch that raises an
    exception other than [APIError], a status with a winning colour or
    the your-turn flag, or any poll read once the deadline has been
    reached. *)
Definition ends_loop (deadline : Z) (p : poll) : bool :=
  match status_fetch p with
  | OtherError _ => true
  | APIError code _ => (code =? 404) || (deadline <=? monotonic p)
  | Fetched status =>
      truthy (get status "winning_color") || truthy (get status "your_turn")
      || (deadline <=? monotonic p)
  end.

(** A final state with scores, and a finished game's poll that comes
    with it. *)
Definition final_table : game_state :=
  {| colors := ["RED"; "BLUE"];
     player_state := list_to_map [("P0_TREASURE_CHESTS", 7); ("P1_TREASURE_CHESTS", 10)];
     action_records := [] |}.

Definition finished (winner : string) (now : Z) (final : option game_state) : poll :=
  {| status_fetch := Fetched (list_to_map (won_by winner));
     monotonic := now;
     final_state := final |}.

(** The number of cards in a resource table. *)
Definition hand_size (tbl : gmap string Z) : Z :=
  foldr Z.add 0 (map (λ res, default 0 (tbl !! res)) RESOURCES).

(** A snapshot whose last roll record carries [value]. *)
Definition rolled_with (value : json) : game_state :=
  {| colors := ["RED"; "BLUE"];
     player_state := ∅;
     action_records :=
       [JList [JStr "RED"; JStr "ROLL_THE_SHELLS"; value];
        JList [JStr "RED"; JStr "END_TIDE"; JNull]] |}.

(** ** Chat *)

(** The exception a missing dict key raises. *)
Inductive key_error : Type := KeyError (key : string).

(** The line of one chat message; [None] when the message has no
    ["message"] key, where [m['message']] raises. *)
Definition chat_line (m : gmap string json) : option string :=
  let name := default (default (JStr "?") (m !! "color")) (m !! "name") in
  msg ← m !! "message";
  Some ("  [" +:+ str (default (JStr "") (m !! "index")) +:+ "] "
        +:+ str name +:+ ": " +:+ str msg).

(** The loop of [_print_chat]: what it prints, and the exception that
    stopped it, if any. *)
Fixpoint chat_loop (messages : list (gmap string json))
  : list event * option key_error :=
  match messages with
  | [] => ([], None)
  | m :: messages' =>
      match chat_line m with
      | None => ([], Some (KeyError "message"))
      | Some text =>
          let '(printed, raised) := chat_loop messages' in
          (Stdout text :: printed, raised)
      end
  end.

Definition _print_chat (messages : list (gmap string json)) (label : string)
  : list event * option key_error :=
  match messages with
  | [] => ([], None)
  | _ :: _ =>
      let '(printed, raised) := chat_loop messages in
      (_section (label +:+ " (" +:+ pretty (Z.of_nat (length messages))
                 +:+ " messages)") ++ printed,
       raised)
  end.

Definition chat_message (fields : list (string * json)) : gmap string json :=
  list_to_map fields.

(** ** Vocabulary for the grouping of actions *)

(** The type tag of an action, when it is a [str]. *)
Definition type_name (a : json) : option string :=
  match action_type a with
  | JStr t => Some t
  | _ => None
  end.

(** The payloads of the actions of type [t], in order. *)
Definition payloads_of (t : string) (actions : list json) : list json :=
  map action_value (filter (λ a, type_name a = Some t) actions).

(** The distinct type tags, in order of first appearance. *)
Definition distinct_types (actions : list json) : list string :=
  fold_left add_str (omap type_name actions) [].

(** ** Session helpers *)

(** [str.lower], on code points below 256: the letters A-Z and the
    accented capitals U+00C0-U+00DE (the multiplication sign U+00D7
    apart) move up by 32. *)
Definition lower_char (c : ascii) : ascii :=
  let n := code c in
  if (((65 <=? n) && (n <=? 90))
      || ((192 <=? n) && (n <=? 222) && negb (n =? 215)))%N
  then ascii_of_N (n + 32) else c.

Fixpoint lower (s : string) : string :=
  match s with
  | EmptyString => EmptyString
  | String c s' => String (lower_char c) (lower s')
  end.

(** [s.replace('_', ' ')]. *)
Fixpoint underscores_to_spaces (s : string) : string :=
  match s with
  | EmptyString => EmptyString
  | String c s' =>
      String (if Ascii.eqb c "_" then " "%char else c) (underscores_to_spaces s')
  end.

(** [s.rstrip("/")]. *)
Fixpoint rstrip_slash (s : string) : string :=
  match s with
  | EmptyString => EmptyString
  | String c s' =>
      match rstrip_slash s' with
      | EmptyString => if Ascii.eqb c "/" then EmptyString else String c EmptyString
      | rest => String c rest
      end
  end.

(** [a or b] on values that are [None] or a [str]: [a] when it is a
    non-empty [str], else [b]. *)
Definition or_else (a b : option string) : option string :=
  match a with
  | Some s => if String.eqb s "" then b else a
  | None => b
  end.

(** [_base], given the values of CLAWTAN_SERVER and CLAWTAN_SERVER_URL
    in the environment ([None] when unset). *)
Definition _base (server server_url : option string) : string :=
  let url := or_else (or_else server server_url) (Some "https://api.clawtan.com") in
  rstrip_slash (default "" url).

(** [_env(name, arg_val, required)], given the value of [CLAWTAN_name]
    in the environment: what it prints, and the value it returns or
    the status it exits with. *)
Definition _env (name : string) (arg_val env_val : option string) (required : bool)
  : list event * (option string + Z) :=
  let val := or_else arg_val env_val in
  let missing :=
    match val with
    | Some s => String.eqb s ""
    | None => true
    end in
  if required && missing then
    ([Stderr ("ERROR: Missing " +:+ name +:+ ". Pass --" +:+ lower name
              +:+ " or set CLAWTAN_" +:+ name)],
     inr 1)
  else ([], inl val).

(** [str.endswith]. *)
Fixpoint ends_with_slash (s : string) : bool :=
  match s with
  | EmptyString => false
  | String c EmptyString => Ascii.eqb c "/"
  | String _ s' => ends_with_slash s'
  end.

(** ** The turn briefing of [cmd_wait] *)

(** A fetched state document: the fields of [game_state], the list of
    legal actions, and its other top-level keys. *)
Record state_doc : Type := {
  core : game_state;
  top : gmap string json;
  current_playable_actions : list json;
}.

(** The baseline taken before polling: [(history_len, chat_since)].
    [state] and [chat] are the outcomes of the two fetches ([None] for
    a failure); the chat is fetched only after the state was. *)
Definition baseline (state : option state_doc)
    (chat : option (list (gmap string json))) : Z * Z :=
  match state with
  | None => (0, 0)
  | Some st =>
      let history_len :=
        if truthy (get (top st) "started")
        then Z.of_nat (length (action_records (core st))) else 0 in
      match chat with
      | None => (history_len, 0)
      | Some messages => (history_len, Z.of_nat (length messages))
      end
  end.

(** The history part of the briefing. *)
Definition briefing_history (history_len : Z) (records : list json) : list event :=
  if history_len <? Z.of_nat (length records)
  then _print_history records history_len else [].

(** The chat part: best effort, whatever goes wrong is swallowed after
    what was printed. *)
Definition briefing_chat (chat : option (list (gmap string json))) : list event :=
  match chat with
  | Some (m :: msgs) => (_print_chat (m :: msgs) "New Chat").1
  | _ => []
  end.

(** The briefing printed once it is the agent's turn, from the state
    fetched then and the outcome of the chat fetch.  A [TypeError] of
    [_print_actions] is not caught: it is the outcome [Raise], which
    does not record what was printed before. *)
Definition briefing (game_id color : string) (history_len : Z) (state : state_doc)
    (chat : option (list (gmap string json))) : result (list event) :=
  let prompt := get_or (top state) "current_prompt" "?" in
  let turns := get_or (top state) "num_turns" "?" in
  let opps := _opponents (core state) color in
  let robber := get (top state) "robber_coordinate" in
  shown ← match current_playable_actions state with
          | [] => Ok []
          | actions => _print_actions actions (Some color)
          end;
  Ok (_header "YOUR TURN"
      ++ [Stdout ("  Game: " +:+ game_id);
          Stdout ("  Turn: " +:+ str turns +:+ " | Prompt: " +:+ str prompt)]
      ++ match _my_status (core state) color with
         | Some my => _print_my_status my
         | None => []
         end
      ++ match opps with
         | [] => []
         | _ => _print_opponents opps
         end
      ++ briefing_history history_len (action_records (core state))
      ++ briefing_chat chat
      ++ shown
      ++ (if truthy robber then [Stdout (nl +:+ "  Robber: " +:+ str robber)] else [])).

(** ** After a submitted action: [cmd_act] *)

(** The actions [cmd_act] counts as the agent's own: all but the lists
    of more than one element whose first slot is true and differs from
    the agent's colour. *)
Definition belongs_to_other (color : string) (a : json) : bool :=
  match a with
  | JList (a0 :: _ :: _) => truthy a0 && negb (eq_str a0 color)
  | _ => false
  end.

Definition own_actions (color : string) (actions : list json) : list json :=
  List.filter (λ a, negb (belongs_to_other color a)) actions.

(** The loop that collects the colours still to act. *)
Definition collect_other (color : string) (other_colors : list json) (a : json)
  : result (list json) :=
  match a with
  | JList (a0 :: _ :: _) =>
      if truthy a0 && negb (eq_str a0 color) then
        if hashable a0 then Ok (set_add other_colors a0) else Raise TypeError
      else Ok other_colors
  | _ => Ok other_colors
  end.

Definition interrupt_prompts : list string :=
  ["RELEASE_CATCH"; "MOVE_THE_KRAKEN"; "DISCARD"].

(** What [cmd_act] prints after the server accepted the action, from
    the response's [detail] and the state fetched afterwards.  A
    [TypeError] of the roll report, of [_print_actions] or of the
    colour set is not caught: it is the outcome [Raise], which does not
    record what was printed before. *)
Definition cmd_act_report (action color : string) (detail : json)
    (state : state_doc) (pre_resources : option (gmap string (gmap string Z)))
  : result (list event) :=
  let current_color := get (top state) "current_color" in
  rolled ← (if String.eqb action "ROLL_THE_SHELLS"
            then _print_roll_result (core state) pre_resources else Ok []);
  let prompt := get_or (top state) "current_prompt" "?" in
  let actions := current_playable_actions state in
  let my_actions := own_actions color actions in
  next ←
    (if eq_str current_color color then
       shown ← match my_actions with
               | [] => Ok [Stdout (nl +:+ "  No actions available.")]
               | _ => _print_actions actions (Some color)
               end;
       Ok ([Stdout ("  Prompt: " +:+ str prompt)]
           ++ match _my_status (core state) color with
              | Some my => _section "Resources" ++ _print_resources (resources my)
              | None => []
              end
           ++ shown)
     else
       match my_actions with
       | _ :: _ =>
           shown ← _print_actions actions (Some color);
           Ok ([Stdout ("  Prompt: " +:+ str prompt)] ++ shown
               ++ [Stdout (nl +:+ "  Note: " +:+ str current_color
                           +:+ " is also acting (e.g. discarding)."
                           +:+ " Your turn will continue after -- run 'clawtan wait'.")])
       | [] =>
           if existsb (eq_str prompt) interrupt_prompts then
             other_colors ← foldM (collect_other color) [] actions;
             line ← match other_colors with
                    | [] =>
                        Ok ("  Current prompt: " +:+ str prompt +:+ " (waiting on "
                            +:+ str current_color +:+ ")")
                    | _ =>
                        names ← join_sorted other_colors;
                        Ok ("  " +:+ names +:+ " must "
                            +:+ underscores_to_spaces (lower (str prompt))
                            +:+ " first.")
                    end;
             Ok (_section "Waiting on Other Players"
                 ++ [Stdout line;
                     Stdout (nl +:+ "  YOUR TURN IS NOT OVER. After they finish, you will continue"
                             +:+ " (e.g. move the Kraken, then play your turn)."
                             +:+ nl +:+ "  Run 'clawtan wait' to resume.")])
           else
             Ok [Stdout (nl +:+ "  Turn passed to " +:+ str current_color
                         +:+ ". Run 'clawtan wait' for your next turn.")]
       end);
  Ok (_header ("ACTION OK: " +:+ action)
      ++ (if truthy detail then [Stdout ("  " +:+ str detail)] else [])
      ++ rolled ++ next).

(** Sample documents for the briefing and for [cmd_act]. *)
Definition kraken_pending : state_doc :=
  {| core := two_seats;
     top := list_to_map [("current_color", JStr "BLUE");
                         ("current_prompt", JStr "RELEASE_CATCH")];
     current_playable_actions :=
       [JList [JStr "WHITE"; JStr "RELEASE_CATCH"; JNull];
        JList [JStr "BLUE"; JStr "RELEASE_CATCH"; JNull]] |}.

Definition started_with (records : list json) : state_doc :=
  {| core := {| colors := ["RED"; "BLUE"]; player_state := ∅;
                action_records := records |};
     top := list_to_map [("started", JBool true)];
     current_playable_actions := [] |}.

(** [n] slashes. *)
Fixpoint slashes (n : nat) : string :=
  match n with
  | O => EmptyString
  | S n' => String "/" (slashes n')
  end.

(** An option or argument that is unset or empty. *)
Definition unset (v : option string) : Prop := v = None ∨ v = Some "".

(* ================================================================== *)
(** * Properties                                                       *)
(* ================================================================== *)

(** ** Python built-ins on sample values *)

Example dumps_nested :
  dumps (JList [JList [JInt 0; JInt 1; JInt (-1)]; JStr "BLUE"; JNull])
  = "[[0,1,-1]," +:+ dq +:+ "BLUE" +:+ dq +:+ ",null]".
Proof. vm_compute. reflexivity. Qed.

Example str_nested :
  str (JList [JStr "RED"; JStr "END_TIDE"; JNull; JBool true; JObj [("a", JInt 3)]])
  = "['RED', 'END_TIDE', None, True, {'a': 3}]".
Proof. vm_compute. reflexivity. Qed.

(** ** State extraction *)

Lemma list_index_None (colors : list string) (color : string) :
  list_index colors color = None ↔ color ∉ colors.
Proof.
  induction colors as [|c colors IH]; simpl.
  - split; [intros _; apply not_elem_of_nil | done].
  - destruct (String.eqb_spec c color) as [->|Hne].
    + split; [done | intros H; destruct H; left].
    + rewrite not_elem_of_cons, <- IH.
      destruct (list_index colors color); simpl.
      * split; [discriminate | intros [_ ?]; discriminate].
      * split; [intros _; split; [congruence | reflexivity] | reflexivity].
Qed.

Lemma find_idx_negative (colors : list string) (color : string) :
  _find_idx colors color < 0 ↔ color ∉ colors.
Proof.
  rewrite <- list_index_None. unfold _find_idx.
  destruct (list_index colors color); split; intros; try done; lia.
Qed.

Lemma ps_get_empty (key : string) : ps_get ∅ key = 0.
Proof. unfold ps_get. by rewrite lookup_empty. Qed.

(** C6: [_my_status] returns [None] exactly when the colour is absent
    from the snapshot's [colors]; for a participating colour it returns
    a status record for that colour, and keys missing from
    [player_state] read as zero and false (shown on the empty table). *)
Theorem my_status_none_iff_absent (state : game_state) (color : string) :
  (_my_status state color = None ↔ color ∉ colors state)
  ∧ (color ∈ colors state →
     ∃ status, _my_status state color = Some status
               ∧ status_color status = color)
  ∧ (color ∈ colors state → player_state state = ∅ →
     _my_status state color = Some (blank_status color)).
Proof.
  pose proof (find_idx_negative (colors state) color) as Hidx.
  unfold _my_status.
  destruct (Z.ltb_spec (_find_idx (colors state) color) 0) as [Hneg|Hpos].
  - split; [|split].
    + split; [intros _; by apply Hidx | done].
    + intros Hin. by apply Hidx in Hneg.
    + intros Hin. by apply Hidx in Hneg.
  - assert (¬ (color ∉ colors state)) as Hn by (rewrite <- Hidx; lia).
    split; [|split].
    + destruct (my_resources _ _). split; [done | intros; contradiction].
    + intros _. destruct (my_resources _ _). eexists. split; reflexivity.
    + intros _ ->. unfold my_resources, my_dev_cards, ps_flag. simpl.
      rewrite !ps_get_empty. reflexivity.
Qed.

Lemma my_status_none_iff_absent_witness :
  _my_status two_seats "BLUE" = Some (blank_status "BLUE")
  ∧ _my_status two_seats "WHITE" = None.
Proof.
  destruct (my_status_none_iff_absent two_seats "BLUE") as (_ & _ & Hblank).
  destruct (my_status_none_iff_absent two_seats "WHITE") as (Hnone & _).
  split.
  - apply Hblank; [|reflexivity].
    apply (bool_decide_unpack _). vm_compute. exact I.
  - apply Hnone. apply (bool_decide_unpack _). vm_compute. exact I.
Defined.

(** ** History delta *)

Lemma slice_from_app {A} (seen recent : list A) :
  slice_from (Z.of_nat (length seen)) (seen ++ recent) = recent.
Proof.
  unfold slice_from.
  destruct (Z.ltb_spec (Z.of_nat (length seen)) 0); [lia|].
  rewrite Nat2Z.id. by rewrite drop_app_length.
Qed.

Lemma slice_from_ge {A} (n : nat) (l : list A) :
  (length l ≤ n)%nat → slice_from (Z.of_nat n) l = [].
Proof.
  intros Hn. unfold slice_from.
  destruct (Z.ltb_spec (Z.of_nat n) 0); [lia|].
  rewrite Nat2Z.id. by apply drop_ge.
Qed.

(** C8: the history delta is the suffix beyond the previously-seen
    count, rendered in order: for [records = seen ++ recent] and the
    count [len(seen)], a non-empty [recent] is printed as the section
    header with its length followed by one line per record of [recent];
    and when the count equals (or exceeds) the length of the sequence
    nothing at all is printed, not even the header. *)
Theorem history_delta_is_suffix (seen recent records : list json) (n : nat) :
  (recent ≠ [] →
   _print_history (seen ++ recent) (Z.of_nat (length seen))
   = _section ("Recent Actions (" +:+ pretty (Z.of_nat (length recent))
               +:+ " moves)")
     ++ map (λ r, Stdout (history_line r)) recent)
  ∧ (n = length records → _print_history records (Z.of_nat n) = [])
  ∧ ((length records < n)%nat → _print_history records (Z.of_nat n) = []).
Proof.
  split; [|split].
  - intros Hne. unfold _print_history. rewrite slice_from_app.
    by destruct recent.
  - intros ->. unfold _print_history. by rewrite slice_from_ge.
  - intros Hlt. unfold _print_history. rewrite slice_from_ge; [done | lia].
Qed.

Lemma history_delta_is_suffix_witness :
  _print_history sample_records 1
  = [Stdout (nl +:+ "--- Recent Actions (2 moves) ---");
     Stdout "  RED: BUILD_TIDE_POOL 12";
     Stdout "  RED: END_TIDE"]
  ∧ _print_history sample_records 3 = []
  ∧ _print_history sample_records 4 = [].
Proof.
  destruct (history_delta_is_suffix (take 1 sample_records)
              (drop 1 sample_records) sample_records 3) as (Hsuffix & Hall & _).
  destruct (history_delta_is_suffix [] [] sample_records 4) as (_ & _ & Hmore).
  split; [|split].
  - apply Hsuffix. discriminate.
  - apply Hall. reflexivity.
  - apply Hmore. simpl. lia.
Defined.

(** ** Roll value *)

Lemma scan_roll_skip (newer older : list json) :
  Forall (λ r, is_roll r = false) newer →
  scan_roll (newer ++ older) = scan_roll older.
Proof.
  induction 1 as [|r newer Hr _ IH]; [reflexivity|].
  simpl. destruct r as [| | | |[|c [|atype rest]]|]; try exact IH.
  simpl in Hr. rewrite Hr. exact IH.
Qed.

Lemma scan_roll_here (r : json) (older : list json) :
  is_roll r = true → scan_roll (r :: older) = action_value r.
Proof.
  destruct r as [| | | |[|c [|atype rest]]|]; try discriminate.
  simpl. intros ->. by destruct rest.
Qed.

Lemma scan_roll_most_recent (older newer : list json) (r : json) :
  is_roll r = true → Forall (λ r, is_roll r = false) newer →
  scan_roll (rev (older ++ r :: newer)) = action_value r.
Proof.
  intros Hr Hnewer.
  rewrite rev_app_distr. simpl. rewrite <- app_assoc. simpl.
  rewrite scan_roll_skip.
  - by apply scan_roll_here.
  - by apply Forall_rev.
Qed.

Lemma scan_roll_absent (records : list json) :
  Forall (λ r, is_roll r = false) records → scan_roll (rev records) = JNull.
Proof.
  intros H. rewrite <- (app_nil_r (rev records)).
  rewrite scan_roll_skip; [reflexivity|].
  by apply Forall_rev.
Qed.

(** Without a pre-roll snapshot [_print_roll_result] prints the roll
    line and nothing else. *)
Lemma print_roll_result_no_snapshot (state : game_state) :
  _print_roll_result state None = roll_line (action_records state).
Proof.
  unfold _print_roll_result.
  destruct (roll_line (action_records state)) as [rolled|e]; [|reflexivity].
  cbn [mbind result_bind bind]. by rewrite app_nil_r.
Qed.

(** C2 (amended): the reporter takes the most recent record whose
    action type is ROLL_THE_SHELLS.  If there is none, or if that
    record carries no value (no third element, or null), no roll line
    is printed.  If its value is a two-element list of integers [a, b]
    the line is "Rolled: a + b = a+b".  If its value is anything else
    that is not a two-element list, the line shows the raw value. *)
Theorem roll_report (records older newer : list json) (r : json) :
  (Forall (λ r, is_roll r = false) records → roll_line records = Ok [])
  ∧ (records = older ++ r :: newer →
     is_roll r = true →
     Forall (λ r, is_roll r = false) newer →
     (action_value r = JNull → roll_line records = Ok [])
     ∧ (∀ a b : Z,
          action_value r = JList [JInt a; JInt b] →
          roll_line records
          = Ok [Stdout ("  Rolled: " +:+ pretty a +:+ " + " +:+ pretty b
                        +:+ " = " +:+ pretty (a + b))])
     ∧ (action_value r ≠ JNull →
        (∀ a b, action_value r ≠ JList [a; b]) →
        roll_line records
        = Ok [Stdout ("  Rolled: " +:+ str (action_value r))])).
Proof.
  split.
  - intros Hnone. unfold roll_line. by rewrite scan_roll_absent.
  - intros -> Hr Hnewer. unfold roll_line.
    rewrite (scan_roll_most_recent _ _ _ Hr Hnewer).
    split; [|split].
    + by intros ->.
    + intros a b ->. reflexivity.
    + intros Hnull Hpair.
      destruct (action_value r) as [| | | |l|] eqn:Hv; try done.
      destruct l as [|a [|b [|c l]]]; try done.
      by destruct (Hpair a b).
Qed.

Lemma roll_report_witness :
  roll_line sample_records = Ok [Stdout "  Rolled: 3 + 4 = 7"]
  ∧ roll_line [JList [JStr "RED"; JStr "END_TIDE"; JNull]] = Ok []
  ∧ roll_line [JList [JStr "RED"; JStr "ROLL_THE_SHELLS"; JNull];
               JList [JStr "RED"; JStr "END_TIDE"; JNull]] = Ok []
  ∧ roll_line [JList [JStr "RED"; JStr "ROLL_THE_SHELLS"; JInt 7]]
    = Ok [Stdout "  Rolled: 7"].
Proof.
  split; [|split; [|split]].
  - destruct (roll_report sample_records []
                [JList [JStr "RED"; JStr "BUILD_TIDE_POOL"; JInt 12];
                 JList [JStr "RED"; JStr "END_TIDE"; JNull]]
                (JList [JStr "RED"; JStr "ROLL_THE_SHELLS"; JList [JInt 3; JInt 4]]))
      as (_ & H).
    destruct H as (_ & Hpair & _); [reflexivity | reflexivity | |].
    + repeat constructor.
    + apply (Hpair 3 4). reflexivity.
  - destruct (roll_report [JList [JStr "RED"; JStr "END_TIDE"; JNull]] [] [] JNull)
      as (Hnone & _).
    apply Hnone. repeat constructor.
  - destruct (roll_report
                [JList [JStr "RED"; JStr "ROLL_THE_SHELLS"; JNull];
                 JList [JStr "RED"; JStr "END_TIDE"; JNull]] []
                [JList [JStr "RED"; JStr "END_TIDE"; JNull]]
                (JList [JStr "RED"; JStr "ROLL_THE_SHELLS"; JNull])) as (_ & H).
    destruct H as (Hnull & _); [reflexivity | reflexivity | |].
    + repeat constructor.
    + apply Hnull. reflexivity.
  - destruct (roll_report [JList [JStr "RED"; JStr "ROLL_THE_SHELLS"; JInt 7]] [] []
                (JList [JStr "RED"; JStr "ROLL_THE_SHELLS"; JInt 7])) as (_ & H).
    destruct H as (_ & _ & Hraw); [reflexivity | reflexivity | constructor |].
    apply Hraw; [discriminate | intros a b; discriminate].
Defined.

(** C2 does not hold as stated: a most recent ROLL_THE_SHELLS record
    that carries no value makes the code print no roll line, where the
    claim has the raw value reported. *)
Lemma roll_without_value_not_reported :
  let absent := [JList [JStr "RED"; JStr "ROLL_THE_SHELLS"]] in
  let null := [JList [JStr "RED"; JStr "ROLL_THE_SHELLS"; JNull]] in
  (roll_line absent = Ok []
   ∧ roll_line_as_claimed absent = Ok [Stdout "  Rolled: None"]
   ∧ roll_line absent ≠ roll_line_as_claimed absent)
  ∧ (roll_line null = Ok []
     ∧ roll_line_as_claimed null = Ok [Stdout "  Rolled: None"]
     ∧ roll_line null ≠ roll_line_as_claimed null).
Proof.
  split; (split; [|split]; [reflexivity | reflexivity | discriminate]).
Qed.

(** ** Resource delta *)

Lemma pretty_negative (diff : Z) :
  diff < 0 → pretty diff = "-" +:+ pretty (- diff).
Proof. destruct diff as [|p|p]; [lia | lia | reflexivity]. Qed.

Lemma gains_loop (pre post : gmap string Z) (kinds : list string)
    (gains : list string) :
  fold_left
    (λ gains res,
       let diff := diff_of pre post res in
       if 0 <? diff then gains ++ ["+" +:+ pretty diff +:+ " " +:+ res]
       else if diff <? 0 then gains ++ [pretty diff +:+ " " +:+ res]
       else gains)
    kinds gains
  = gains ++ map (λ res, gain_text (diff_of pre post res) res)
                 (filter (λ res, diff_of pre post res ≠ 0) kinds).
Proof.
  revert gains. induction kinds as [|res kinds IH]; intros gains; simpl.
  - by rewrite app_nil_r.
  - rewrite IH, filter_cons. unfold gain_text.
    destruct (0 <? diff_of pre post res) eqn:Hpos;
      [|destruct (diff_of pre post res <? 0) eqn:Hneg].
    + rewrite decide_True by lia. simpl. rewrite Hpos.
      by rewrite <- app_assoc.
    + rewrite decide_True by lia. simpl. rewrite Hpos.
      rewrite (pretty_negative (diff_of pre post res)) by lia.
      by rewrite <- app_assoc.
    + rewrite decide_False by lia. reflexivity.
Qed.

Lemma gains_of_changed (pre post : gmap string Z) :
  gains_of pre post
  = map (λ res, gain_text (diff_of pre post res) res) (changed pre post).
Proof. unfold gains_of. by rewrite gains_loop. Qed.

Lemma gains_of_nil (pre post : gmap string Z) :
  gains_of pre post = [] ↔ changed pre post = [].
Proof.
  rewrite gains_of_changed.
  destruct (changed pre post); simpl; split; intros; done.
Qed.

Section Distribution.

Variables pre_resources post_resources : gmap string (gmap string Z).

Local Abbreviation pre_of := (pre_of pre_resources).
Local Abbreviation post_of := (post_of post_resources).
Local Abbreviation player_line := (player_line pre_resources post_resources).
Local Abbreviation movers := (movers pre_resources post_resources).

Lemma distribute_loop (players : list string) (printed : list event)
    (any_gains : bool) :
  fold_left (distribute_step pre_resources post_resources) players
            (printed, any_gains)
  = (printed ++ map player_line (movers players),
     any_gains || bool_decide (movers players ≠ [])).
Proof.
  revert printed any_gains.
  induction players as [|c players IH]; intros printed any_gains; simpl.
  - rewrite app_nil_r, orb_false_r. reflexivity.
  - unfold movers. rewrite filter_cons. fold (movers players).
    pose proof (gains_of_nil (pre_of c) (post_of c)) as Hnil.
    pose proof (gains_of_changed (pre_of c) (post_of c)) as Hgains.
    unfold distribute_step at 1. fold (pre_of c) (post_of c).
    destruct (gains_of (pre_of c) (post_of c)) as [|g gains].
    + rewrite decide_False by (intros H; apply H, Hnil; reflexivity).
      apply IH.
    + rewrite decide_True by (intros H; apply Hnil in H; discriminate).
      rewrite IH. simpl. rewrite <- app_assoc, orb_true_r. simpl.
      unfold player_line. rewrite <- Hgains. reflexivity.
Qed.

End Distribution.

(** C7 (amended): for a pre-action mapping that is not empty, the
    resource delta prints the section header and then, for each player
    of the post-action snapshot in seat order, exactly the resource
    kinds whose post-minus-pre difference is nonzero, as [+N KIND] for
    gains and [-N KIND] for losses, one line per player with such a
    kind; when no player has one it prints the line
    "No resources produced." instead. *)
Theorem resource_delta (state : game_state)
    (pre_resources : gmap string (gmap string Z)) (rolled : list event) :
  pre_resources ≠ ∅ →
  roll_line (action_records state) = Ok rolled →
  let post_resources := _all_player_resources state in
  let moved := movers pre_resources post_resources (colors state) in
  _print_roll_result state (Some pre_resources)
  = Ok (rolled ++ _section "Resources Distributed"
        ++ match moved with
           | [] => [Stdout "  No resources produced."]
           | _ => map (player_line pre_resources post_resources) moved
           end).
Proof.
  intros Hne Hroll post_resources moved.
  unfold _print_roll_result. rewrite Hroll. simpl.
  rewrite decide_False by done.
  unfold resources_distributed. fold post_resources.
  rewrite distribute_loop. fold moved. simpl.
  destruct moved; simpl.
  - reflexivity.
  - by rewrite app_nil_r.
Qed.

Lemma resource_delta_witness :
  _print_roll_result after_roll (Some (_all_player_resources before_roll))
  = Ok [Stdout "  Rolled: 3 + 4 = 7";
        Stdout (nl +:+ "--- Resources Distributed ---");
        Stdout "  RED: -1 KELP";
        Stdout "  BLUE: +1 PEARL"]
  ∧ _print_roll_result after_roll (Some (_all_player_resources after_roll))
    = Ok [Stdout "  Rolled: 3 + 4 = 7";
          Stdout (nl +:+ "--- Resources Distributed ---");
          Stdout "  No resources produced."].
Proof.
  split.
  - refine (eq_trans (resource_delta after_roll (_all_player_resources before_roll)
                        [Stdout "  Rolled: 3 + 4 = 7"] _ _) _).
    + apply (bool_decide_unpack _). vm_compute. exact I.
    + reflexivity.
    + vm_compute. reflexivity.
  - refine (eq_trans (resource_delta after_roll (_all_player_resources after_roll)
                        [Stdout "  Rolled: 3 + 4 = 7"] _ _) _).
    + apply (bool_decide_unpack _). vm_compute. exact I.
    + reflexivity.
    + vm_compute. reflexivity.
Defined.

(** C7 does not hold for every pre-action mapping: with the empty
    mapping (a snapshot of a game without players) no player has a
    nonzero difference, and the code prints nothing where the claim has
    the "No resources produced." line. *)
Lemma empty_mapping_prints_nothing :
  _all_player_resources no_players = ∅
  ∧ movers (_all_player_resources no_players)
           (_all_player_resources no_players) (colors no_players) = []
  ∧ _print_roll_result no_players (Some (_all_player_resources no_players))
    = Ok []
  ∧ ¬ Stdout "  No resources produced."
      ∈ default [] (match _print_roll_result no_players
                            (Some (_all_player_resources no_players)) with
                    | Ok out => Some out
                    | Raise _ => None
                    end).
Proof.
  split; [reflexivity|]. split; [reflexivity|]. split; [reflexivity|].
  simpl. apply not_elem_of_nil.
Qed.

(** ** Action grouping *)

Lemma existsb_key_eqb (c : string) (s : list string) :
  existsb (key_eqb (JStr c)) (map JStr s) = bool_decide (c ∈ s).
Proof.
  induction s as [|d s IH]; simpl.
  - reflexivity.
  - rewrite IH. destruct (String.eqb_spec c d) as [->|Hne]; simpl.
    + symmetry. apply bool_decide_eq_true. left.
    + apply bool_decide_ext. rewrite elem_of_cons. naive_solver.
Qed.

Lemma set_add_strs (s : list string) (c : string) :
  set_add (map JStr s) (JStr c) = map JStr (add_str s c).
Proof.
  unfold set_add, add_str. rewrite existsb_key_eqb.
  destruct (decide (c ∈ s)) as [Hin|Hout].
  - by rewrite bool_decide_true.
  - rewrite bool_decide_false by done. by rewrite map_app.
Qed.

Lemma add_strs_elem_of (cs s : list string) (x : string) :
  x ∈ fold_left add_str cs s ↔ x ∈ s ∨ x ∈ cs.
Proof.
  revert s. induction cs as [|c cs IH]; intros s; simpl.
  - rewrite elem_of_nil. naive_solver.
  - rewrite IH, elem_of_cons. unfold add_str.
    destruct (decide (c ∈ s)); [|rewrite elem_of_app, list_elem_of_singleton];
      naive_solver.
Qed.

Lemma add_strs_NoDup (cs s : list string) :
  NoDup s → NoDup (fold_left add_str cs s).
Proof.
  revert s. induction cs as [|c cs IH]; intros s Hs; simpl; [done|].
  apply IH. unfold add_str. destruct (decide (c ∈ s)); [done|].
  apply NoDup_app. split; [done|]. split.
  - intros x Hx ->%list_elem_of_singleton. done.
  - apply NoDup_singleton.
Qed.

Lemma as_strs_strs (s : list string) : as_strs (map JStr s) = Some s.
Proof.
  apply mapM_Some. induction s; simpl; constructor; done.
Qed.

Lemma split_others (mc : string) (actions my : list json) (s : list string) :
  mc ≠ "" →
  Forall (λ a, carries_other mc a = true) actions →
  foldM (split_action (Some mc)) (my, map JStr s) actions
  = Ok (my, map JStr (fold_left add_str (omap color_of actions) s)).
Proof.
  intros Hmc Hall. revert s.
  induction Hall as [|a actions Ha _ IH]; intros s; [reflexivity|].
  destruct a as [| | | |[|[| | |c| |] [|atype rest]]|]; try discriminate.
  simpl in Ha. apply andb_true_iff in Ha as [Hc Hne].
  cbn [foldM split_action other_color truthy eq_str hashable].
  rewrite Hc, Hne.
  destruct (String.eqb_spec mc ""); [done|]. simpl.
  rewrite set_add_strs. apply IH.
Qed.

(** C9: when every action carries a colour other than the agent's own
    (so none is the agent's and at least one is another player's), the
    grouper prints the section header and the one message "(none for
    you -- waiting on: ...)" listing the distinct other colours in
    sorted order, and nothing else: no action group is rendered. *)
Theorem waiting_on_others (actions : list json) (mc : string) :
  mc ≠ "" →
  actions ≠ [] →
  Forall (λ a, carries_other mc a = true) actions →
  let waiting := sorted (distinct_colors actions) in
  _print_actions actions (Some mc)
  = Ok (_section "Available Actions"
        ++ [Stdout ("  (none for you -- waiting on: "
                    +:+ join ", " waiting +:+ ")")])
  ∧ Sorted String.le waiting
  ∧ NoDup waiting
  ∧ ∀ c, c ∈ waiting ↔ ∃ a, a ∈ actions ∧ color_of a = Some c.
Proof.
  intros Hmc Hne Hall waiting. subst waiting.
  set (others := distinct_colors actions).
  assert (∀ c, c ∈ others ↔ ∃ a, a ∈ actions ∧ color_of a = Some c) as Hmem.
  { intros c. unfold others, distinct_colors.
    rewrite add_strs_elem_of, elem_of_nil.
    rewrite list_elem_of_omap. naive_solver. }
  assert (others ≠ []) as Hothers.
  { destruct actions as [|a actions]; [done|].
    apply Forall_cons in Hall as [Ha _].
    destruct a as [| | | |[|[| | |c| |] [|atype rest]]|]; try discriminate.
    intros Hnil. assert (c ∈ others) as Hc.
    { apply Hmem. eexists; split; [left | reflexivity]. }
    rewrite Hnil in Hc. by apply elem_of_nil in Hc. }
  split; [|split; [|split]].
  - unfold _print_actions, split_actions.
    pose proof (split_others mc actions [] [] Hmc Hall) as Hsplit.
    change (map JStr []) with (@nil json) in Hsplit.
    rewrite Hsplit. fold (distinct_colors actions). fold others.
    cbn [mbind result_bind bind].
    destruct others as [|c others']; [done|].
    cbn [map]. unfold join_sorted.
    change (JStr c :: map JStr others') with (map JStr (c :: others')).
    by rewrite as_strs_strs.
  - apply (Sorted_merge_sort String.le).
  - unfold sorted. rewrite merge_sort_Permutation.
    apply add_strs_NoDup, NoDup_nil_2.
  - intros c. unfold sorted. rewrite merge_sort_Permutation. apply Hmem.
Qed.

Lemma waiting_on_others_witness :
  _print_actions
    [JList [JStr "WHITE"; JStr "RELEASE_CATCH"; JNull];
     JList [JStr "BLUE"; JStr "RELEASE_CATCH"; JNull];
     JList [JStr "WHITE"; JStr "RELEASE_CATCH"; JList [JInt 1; JInt 0]]]
    (Some "RED")
  = Ok [Stdout (nl +:+ "--- Available Actions ---");
        Stdout "  (none for you -- waiting on: BLUE, WHITE)"].
Proof.
  destruct (waiting_on_others
              [JList [JStr "WHITE"; JStr "RELEASE_CATCH"; JNull];
               JList [JStr "BLUE"; JStr "RELEASE_CATCH"; JNull];
               JList [JStr "WHITE"; JStr "RELEASE_CATCH"; JList [JInt 1; JInt 0]]]
              "RED") as (Hout & _).
  - discriminate.
  - discriminate.
  - repeat constructor.
  - rewrite Hout. vm_compute. reflexivity.
Defined.

Lemma split_mine (mc t : string) (values acc : list json) :
  foldM (split_action (Some mc)) (acc, []) (map (mine mc t) values)
  = Ok (acc ++ map (mine mc t) values, []).
Proof.
  revert acc. induction values as [|v values IH]; intros acc.
  - simpl. by rewrite app_nil_r.
  - cbn [map foldM mine split_action other_color eq_str].
    rewrite String.eqb_refl, andb_false_r.
    cbn [mbind result_bind bind]. rewrite IH.
    by rewrite <- app_assoc.
Qed.

Lemma group_mine (mc t : string) (values seen : list json) :
  foldM group_action [(JStr t, seen)] (map (mine mc t) values)
  = Ok [(JStr t, seen ++ values)].
Proof.
  revert seen. induction values as [|v values IH]; intros seen.
  - simpl. by rewrite app_nil_r.
  - cbn [map foldM mine group_action action_type action_value hashable
         group_append key_eqb].
    rewrite String.eqb_refl. cbn [mbind result_bind bind].
    rewrite IH. by rewrite <- app_assoc.
Qed.

Lemma print_actions_one_type (mc t : string) (values : list json) :
  values ≠ [] →
  _print_actions (map (mine mc t) values) (Some mc)
  = (out ← print_group (JStr t) values;
     Ok (_section "Available Actions" ++ out)).
Proof.
  intros Hne. destruct values as [|v values]; [done|].
  unfold _print_actions, split_actions.
  rewrite split_mine. cbn [mbind result_bind bind app].
  cbn [map foldM mine group_action action_type action_value hashable
       group_append].
  cbn [mbind result_bind bind].
  change (JList [JStr mc; JStr t; v]) with (mine mc t v).
  rewrite group_mine. cbn [app print_groups mbind result_bind bind].
  destruct (print_group (JStr t) (v :: values)) as [out|e]; [|reflexivity].
  cbn [mbind result_bind bind]. by rewrite app_nil_r.
Qed.

(** The action types that have a static usage hint. *)
Lemma hinted_types :
  dom _ACTION_HINTS
  = ({["RELEASE_CATCH"; "MOVE_THE_KRAKEN"; "OCEAN_TRADE";
       "PLAY_BOUNTIFUL_HARVEST"]} : gset string).
Proof. apply (bool_decide_unpack _). vm_compute. exact I. Qed.

(** C3 (amended): for a group whose payloads are not all absent, each
    payload is rendered as compact JSON.  When the action type has no
    static usage hint, the payloads are shown on one line, joined by
    " | ", if the length of the joined text plus the length of the type
    name plus 4 is at most 120, and otherwise as the option count
    followed by one payload per line.  When the type has a usage hint,
    the option count, the hint and one payload per line are shown,
    whatever the length.  A list of own actions of one type is printed
    as the section header followed by that group. *)
Theorem group_rendering (mc t : string) (values : list json) :
  forallb is_None values = false →
  let joined := join " | " (map dumps values) in
  let per_line := map payload_line (map dumps values) in
  (_ACTION_HINTS !! t = None →
   len joined + len t + 4 ≤ 120 →
   print_group (JStr t) values = Ok [Stdout ("  " +:+ t +:+ ": " +:+ joined)])
  ∧ (_ACTION_HINTS !! t = None →
     120 < len joined + len t + 4 →
     print_group (JStr t) values
     = Ok (options_line (JStr t) values :: per_line))
  ∧ (∀ hint, _ACTION_HINTS !! t = Some hint →
     print_group (JStr t) values
     = Ok (options_line (JStr t) values :: hint_line hint :: per_line))
  ∧ _print_actions (map (mine mc t) values) (Some mc)
    = (out ← print_group (JStr t) values;
       Ok (_section "Available Actions" ++ out)).
Proof.
  intros Hsome joined per_line.
  split; [|split; [|split]].
  - intros Hhint Hfit. unfold print_group. rewrite Hsome. simpl. rewrite Hhint.
    fold joined. destruct (Z.leb_spec (len joined + len t + 4) 120); [done|lia].
  - intros Hhint Hwide. unfold print_group. rewrite Hsome. simpl. rewrite Hhint.
    fold joined. destruct (Z.leb_spec (len joined + len t + 4) 120); [lia|done].
  - intros hint Hhint. unfold print_group. rewrite Hsome. simpl.
    by rewrite Hhint.
  - apply print_actions_one_type. by destruct values.
Qed.

Lemma group_rendering_witness :
  _print_actions
    [mine "RED" "BUILD_CURRENT" (JList [JInt 3; JInt 7]);
     mine "RED" "BUILD_CURRENT" (JList [JInt 4; JInt 7])] (Some "RED")
  = Ok [Stdout (nl +:+ "--- Available Actions ---");
        Stdout "  BUILD_CURRENT: [3,7] | [4,7]"]
  ∧ print_group (JStr "BUILD_TIDE_POOL") (map JInt (seqZ 100 30))
    = Ok (Stdout "  BUILD_TIDE_POOL (30 options):"
          :: map (λ n, Stdout ("    " +:+ pretty n)) (seqZ 100 30))
  ∧ print_group (JStr "RELEASE_CATCH") [JList [JInt 1; JInt 0; JInt 0; JInt 1; JInt 0]]
    = Ok [Stdout "  RELEASE_CATCH (1 options):";
          hint_line (default "" (_ACTION_HINTS !! "RELEASE_CATCH"));
          Stdout "    [1,0,0,1,0]"].
Proof.
  split; [|split].
  - destruct (group_rendering "RED" "BUILD_CURRENT"
                [JList [JInt 3; JInt 7]; JList [JInt 4; JInt 7]])
      as (Hfit & _ & _ & Hall); [reflexivity|].
    refine (eq_trans Hall _). rewrite Hfit.
    + reflexivity.
    + vm_compute. reflexivity.
    + vm_compute. discriminate.
  - destruct (group_rendering "RED" "BUILD_TIDE_POOL" (map JInt (seqZ 100 30)))
      as (_ & Hwide & _); [reflexivity|].
    refine (eq_trans (Hwide _ _) _).
    + vm_compute. reflexivity.
    + vm_compute. reflexivity.
    + vm_compute. reflexivity.
  - destruct (group_rendering "RED" "RELEASE_CATCH"
                [JList [JInt 1; JInt 0; JInt 0; JInt 1; JInt 0]])
      as (_ & _ & Hhint & _); [reflexivity|].
    refine (eq_trans (Hhint _ _) _).
    + vm_compute. reflexivity.
    + vm_compute. reflexivity.
Defined.

(** C3 does not hold for the hinted action types: a single short
    payload of a hinted type fits the width budget, yet the code shows
    the option count, the hint and one payload per line, not the
    one-line form. *)
Lemma hinted_group_not_inline :
  let values := [JList [JStr "DRIFTWOOD"; JStr "CORAL"]] in
  let joined := join " | " (map dumps values) in
  len joined + len "PLAY_BOUNTIFUL_HARVEST" + 4 ≤ 120
  ∧ _print_actions (map (mine "RED" "PLAY_BOUNTIFUL_HARVEST") values) (Some "RED")
    = Ok [Stdout (nl +:+ "--- Available Actions ---");
          Stdout "  PLAY_BOUNTIFUL_HARVEST (1 options):";
          hint_line (default "" (_ACTION_HINTS !! "PLAY_BOUNTIFUL_HARVEST"));
          Stdout ("    [" +:+ dq +:+ "DRIFTWOOD" +:+ dq +:+ "," +:+ dq
                  +:+ "CORAL" +:+ dq +:+ "]")]
  ∧ _print_actions (map (mine "RED" "PLAY_BOUNTIFUL_HARVEST") values) (Some "RED")
    ≠ Ok [Stdout (nl +:+ "--- Available Actions ---");
          Stdout ("  PLAY_BOUNTIFUL_HARVEST: " +:+ joined)].
Proof.
  split; [|split].
  - vm_compute. discriminate.
  - vm_compute. reflexivity.
  - vm_compute. discriminate.
Qed.

(** ** The poll loop *)

Section WaitLoopFacts.

Variable game_id : string.
Variables poll_interval deadline : Z.

Local Abbreviation iteration := (wait_iteration game_id poll_interval deadline).
Local Abbreviation loop := (wait_loop game_id poll_interval deadline).

(** The loop after an iteration that stops, and after one that goes on. *)
Lemma wait_loop_stop (phase_shown : option string) (p : poll)
    (script : list poll) (out : list event) (stop : control) :
  iteration phase_shown p = (out, stop) →
  (∀ phase, stop ≠ Continue phase) →
  loop phase_shown (p :: script)
  = {| log := out; ended := Some stop; unused := script |}.
Proof.
  intros Hit Hstop. simpl. rewrite Hit.
  destruct stop; try reflexivity. by destruct (Hstop phase_shown0).
Qed.

Lemma wait_loop_continue (phase_shown phase_shown' : option string) (p : poll)
    (script : list poll) (out : list event) :
  iteration phase_shown p = (out, Continue phase_shown') →
  loop phase_shown (p :: script)
  = {| log := out ++ log (loop phase_shown' script);
       ended := ended (loop phase_shown' script);
       unused := unused (loop phase_shown' script) |}.
Proof. intros Hit. simpl. by rewrite Hit. Qed.

(** A run over [before ++ after] that is still polling at the end of
    [before] goes on as a run over [after]: what is shown below for the
    poll at the head of a script holds at every poll of a run. *)
Lemma wait_loop_resume (before after : list poll) (phase_shown : option string) :
  ended (loop phase_shown before) = None →
  ∃ phase_shown',
    loop phase_shown (before ++ after)
    = {| log := log (loop phase_shown before)
                ++ log (loop phase_shown' after);
         ended := ended (loop phase_shown' after);
         unused := unused (loop phase_shown' after) |}.
Proof.
  revert phase_shown.
  induction before as [|p before IH]; intros phase_shown Hpolling.
  - exists phase_shown. simpl. by destruct (loop phase_shown after).
  - simpl in *. destruct (iteration phase_shown p) as [out [ph| | |c|exc]];
      simpl in *; try discriminate.
    destruct (IH ph Hpolling) as [ph' ->]. exists ph'. simpl.
    by rewrite <- app_assoc.
Qed.

(** The failures that reach the loop as an [APIError]: a status fetch
    that fails with HTTP 404 ends the wait at once with exit status 1
    and the "Game not found" message: no sleep, and no further poll is
    asked for.  An [APIError] with any other code is retried after
    sleeping the poll interval while the deadline has not been reached,
    and ends the wait with the timeout error and exit status 1 once it
    has. *)
Theorem fetch_failure (phase_shown : option string) (p : poll)
    (script : list poll) (code : Z) (detail : string) :
  status_fetch p = APIError code detail →
  let run := loop phase_shown (p :: script) in
  (code = 404 →
   run = {| log := [Stderr ("ERROR: Game not found: " +:+ game_id)];
            ended := Some (Exit 1);
            unused := script |})
  ∧ (code ≠ 404 → monotonic p < deadline →
     let retry := loop phase_shown script in
     run = {| log := Sleep poll_interval :: log retry;
              ended := ended retry;
              unused := unused retry |})
  ∧ (code ≠ 404 → deadline ≤ monotonic p →
     run = {| log := [Stderr ("ERROR: Timeout (" +:+ detail +:+ ")")];
              ended := Some (Exit 1);
              unused := script |}).
Proof.
  intros Hfetch run. subst run.
  split; [|split].
  - intros ->. apply wait_loop_stop; [|discriminate].
    unfold wait_iteration. by rewrite Hfetch.
  - intros Hcode Hearly retry. subst retry.
    rewrite (wait_loop_continue phase_shown phase_shown p script
               [Sleep poll_interval]); [reflexivity|].
    unfold wait_iteration. rewrite Hfetch.
    destruct (Z.eqb_spec code 404); [done|].
    destruct (Z.leb_spec deadline (monotonic p)); [lia|done].
  - intros Hcode Hlate. apply wait_loop_stop; [|discriminate].
    unfold wait_iteration. rewrite Hfetch.
    destruct (Z.eqb_spec code 404); [done|].
    destruct (Z.leb_spec deadline (monotonic p)); [done|lia].
Qed.

(** C1 (defect of the code): the loop retries only the failures that
    [_req] reports as an [APIError].  A status fetch that raises any
    other exception, as [json.loads] does on a body that is not JSON, is
    not caught by the loop's [except APIError]: whatever the clock
    reads, the loop stops at that poll with the exception uncaught,
    having printed nothing and slept not at all, and asks for no
    further poll.  So that failure is neither retried after the poll
    interval nor turned into the timeout failure. *)
Theorem fetch_exception_escapes (phase_shown : option string) (p : poll)
    (script : list poll) (exception : string) :
  status_fetch p = OtherError exception →
  let run := loop phase_shown (p :: script) in
  run = {| log := []; ended := Some (Uncaught exception); unused := script |}
  ∧ (let retry := loop phase_shown script in
     run ≠ {| log := Sleep poll_interval :: log retry;
              ended := ended retry;
              unused := unused retry |})
  ∧ (∀ text, run ≠ {| log := [Stderr text];
                      ended := Some (Exit 1);
                      unused := script |}).
Proof.
  intros Hfetch run.
  assert (run = {| log := []; ended := Some (Uncaught exception);
                   unused := script |}) as ->.
  { subst run. apply wait_loop_stop; [|discriminate].
    unfold wait_iteration. by rewrite Hfetch. }
  split; [reflexivity|]. split; [|intros text]; discriminate.
Qed.

Lemma progress_by_phase (status : gmap string json) (phase_shown : option string) :
  progress status phase_shown
  = if bool_decide (phase_shown = Some (phase_of status))
    then ([], phase_shown)
    else ([Stderr (notice_text status)], Some (phase_of status)).
Proof.
  unfold progress, phase_of, notice_text.
  destruct (truthy (get status "started")); simpl;
    by destruct (bool_decide _).
Qed.

Lemma final_scores_stdout (winner : json) (final : option game_state) :
  Forall (λ e, ∃ text, e = Stdout text) (final_scores winner final).
Proof.
  destruct final as [state|]; simpl; [|constructor].
  constructor; [by eexists|].
  induction (enumerate (colors state)) as [|[i c] l IH]; simpl;
    constructor; [by eexists | exact IH].
Qed.

(** C10: on a successfully fetched status the deadline is consulted
    only after the game-over and your-turn checks.  Whatever the clock
    reads, a status with a winning colour ends the wait by [return]
    (game over) with nothing on standard error, and a status without a
    winning colour but flagged as the agent's turn ends it by [break]
    (my turn) after the progress notice only; no further poll is asked
    for.  The iteration exits with a failure only if the status has
    neither a winning colour nor the your-turn flag and the deadline
    has been reached. *)
Theorem success_before_deadline (phase_shown : option string) (p : poll)
    (script : list poll) (status : gmap string json) :
  status_fetch p = Fetched status →
  let run := loop phase_shown (p :: script) in
  (truthy (get status "winning_color") = true →
   ended run = Some Return ∧ unused run = script
   ∧ Forall (λ e, ∃ text, e = Stdout text) (log run))
  ∧ (truthy (get status "winning_color") = false →
     truthy (get status "your_turn") = true →
     ended run = Some Break ∧ unused run = script
     ∧ log run = (progress status phase_shown).1)
  ∧ (∀ code, (iteration phase_shown p).2 = Exit code →
     truthy (get status "winning_color") = false
     ∧ truthy (get status "your_turn") = false
     ∧ deadline ≤ monotonic p
     ∧ (iteration phase_shown p).1
       = (progress status phase_shown).1
         ++ [Stderr "ERROR: Timeout waiting for turn"]).
Proof.
  intros Hfetch run. subst run. simpl. unfold wait_iteration.
  rewrite Hfetch.
  destruct (truthy (get status "winning_color")).
  - split; [|split]; [|discriminate|discriminate].
    intros _. simpl. split; [reflexivity|]. split; [reflexivity|].
    constructor; [by eexists|]. constructor; [by eexists|].
    apply final_scores_stdout.
  - destruct (progress status phase_shown) as [notice phase'].
    destruct (truthy (get status "your_turn")).
    + split; [|split]; [discriminate| |discriminate]. by intros _ _.
    + destruct (Z.leb_spec deadline (monotonic p)); simpl.
      * split; [|split]; [discriminate|discriminate|]. by intros code _.
      * split; [|split]; discriminate.
Qed.

(** C4 (amended): on a successful poll of a started game without a
    winning colour, the "Waiting for your turn" notice is printed
    exactly when the phase last shown is not the turn phase, whether or
    not the status is flagged as the agent's turn.  When it is flagged,
    the loop then stops by [break] (my turn) without sleeping or
    polling again; when it is not, the loop sleeps and polls again, or
    fails with the timeout once the deadline has been reached. *)
Theorem turn_notice (phase_shown : option string) (p : poll)
    (script : list poll) (status : gmap string json) :
  status_fetch p = Fetched status →
  truthy (get status "winning_color") = false →
  truthy (get status "started") = true →
  let notice :=
    if bool_decide (phase_shown = Some "turn") then []
    else [Stderr ("Waiting for your turn (current: "
                  +:+ str (get_or status "current_color" "?") +:+ ")...")] in
  (truthy (get status "your_turn") = true →
   loop phase_shown (p :: script)
   = {| log := notice; ended := Some Break; unused := script |})
  ∧ (truthy (get status "your_turn") = false → monotonic p < deadline →
     iteration phase_shown p
     = (notice ++ [Sleep poll_interval], Continue (Some "turn")))
  ∧ (truthy (get status "your_turn") = false → deadline ≤ monotonic p →
     iteration phase_shown p
     = (notice ++ [Stderr "ERROR: Timeout waiting for turn"], Exit 1)).
Proof.
  intros Hfetch Hwin Hstarted notice.
  assert (progress status phase_shown
          = (notice, Some "turn")) as Hprogress.
  { unfold progress, notice. rewrite Hstarted. simpl.
    destruct (bool_decide_reflect (phase_shown = Some "turn")) as [->|];
      reflexivity. }
  split; [|split].
  - intros Hturn. apply wait_loop_stop; [|discriminate].
    unfold wait_iteration. by rewrite Hfetch, Hwin, Hprogress, Hturn.
  - intros Hturn Hearly.
    unfold wait_iteration. rewrite Hfetch, Hwin, Hprogress, Hturn.
    destruct (Z.leb_spec deadline (monotonic p)); [lia|done].
  - intros Hturn Hlate.
    unfold wait_iteration. rewrite Hfetch, Hwin, Hprogress, Hturn.
    destruct (Z.leb_spec deadline (monotonic p)); [done|lia].
Qed.

Lemma notice_phase_text (status : gmap string json) :
  notice_phase (Stderr (notice_text status)) = Some (phase_of status).
Proof.
  unfold notice_text, phase_of.
  by destruct (truthy (get status "started")).
Qed.

Lemma no_notice_on_stdout (out : list event) :
  Forall (λ e, ∃ text, e = Stdout text) out → omap notice_phase out = [].
Proof.
  induction 1 as [|e out [text ->] _ IH]; [reflexivity|]. simpl. exact IH.
Qed.

Lemma iteration_notices (phase_shown : option string) (p : poll) :
  (omap notice_phase (iteration phase_shown p).1 = []
   ∧ ∀ phase', (iteration phase_shown p).2 = Continue phase' →
               phase' = phase_shown)
  ∨ (∃ label,
       omap notice_phase (iteration phase_shown p).1 = [label]
       ∧ phase_shown ≠ Some label
       ∧ ∀ phase', (iteration phase_shown p).2 = Continue phase' →
                   phase' = Some label).
Proof.
  unfold wait_iteration.
  destruct (status_fetch p) as [status|code detail|exception];
    [| |left; split; [reflexivity|discriminate]].
  - destruct (truthy (get status "winning_color")).
    + left. split; [|discriminate]. simpl.
      apply no_notice_on_stdout, final_scores_stdout.
    + rewrite progress_by_phase.
      destruct (bool_decide_reflect (phase_shown = Some (phase_of status)))
        as [Hsame|Hnew].
      * left.
        destruct (truthy (get status "your_turn"));
          [|destruct (deadline <=? monotonic p)];
          (split; [reflexivity | simpl; congruence]).
      * right. exists (phase_of status).
        pose proof (notice_phase_text status) as Hlabel.
        destruct (truthy (get status "your_turn"));
          [|destruct (deadline <=? monotonic p)];
          (split; [|split; [done | simpl; congruence]]);
          cbn [fst app omap list_omap]; rewrite Hlabel; reflexivity.
  - left.
    destruct (code =? 404); [|destruct (deadline <=? monotonic p)];
      (split; [reflexivity | simpl; congruence]).
Qed.

(** C5: the labels of the phase notices a run of the loop prints never
    repeat: each notice announces a phase different from the one
    announced before it.  The notice is keyed on the phase alone: a
    status in the phase already shown prints none, whatever its current
    colour or player counts, and a notice printed after another one
    announces the other phase. *)
Theorem no_repeated_notice (phase_shown : option string)
    (script : list poll) (status : gmap string json) :
  alternating phase_shown (omap notice_phase (log (loop phase_shown script)))
  ∧ progress status (Some (phase_of status)) = ([], Some (phase_of status))
  ∧ (∀ shown, shown ≠ phase_of status →
       progress status (Some shown)
       = ([Stderr (notice_text status)], Some (phase_of status))
       ∧ notice_phase (Stderr (notice_text status)) = Some (phase_of status)).
Proof.
  split; [|split].
  - revert phase_shown.
    induction script as [|p script IH]; intros phase_shown; [exact I|].
    simpl.
    destruct (iteration_notices phase_shown p) as [[Hnone Hnext]|(l & Hone & Hne & Hnext)];
      destruct (iteration phase_shown p) as [out [phase'| | |code|exception]];
      simpl in *; rewrite ?omap_app, ?Hnone, ?Hone; simpl; try done.
    + rewrite (Hnext phase' eq_refl). apply IH.
    + rewrite (Hnext phase' eq_refl). split; [done | apply IH].
  - rewrite progress_by_phase. by rewrite bool_decide_true.
  - intros shown Hne. rewrite progress_by_phase.
    rewrite bool_decide_false by congruence.
    split; [reflexivity | apply notice_phase_text].
Qed.

End WaitLoopFacts.

Lemma fetch_failure_witness :
  wait_loop "g1" 5 100 None [failed 404 "Not Found" 3; answered (my_turn "RED") 4]
  = {| log := [Stderr "ERROR: Game not found: g1"];
       ended := Some (Exit 1);
       unused := [answered (my_turn "RED") 4] |}
  ∧ wait_loop "g1" 5 100 None [failed 503 "busy" 3; answered (my_turn "RED") 4]
    = {| log := [Sleep 5; Stderr "Waiting for your turn (current: RED)..."];
         ended := Some Break;
         unused := [] |}
  ∧ wait_loop "g1" 5 100 None [failed 503 "busy" 100; answered (my_turn "RED") 101]
    = {| log := [Stderr "ERROR: Timeout (busy)"];
         ended := Some (Exit 1);
         unused := [answered (my_turn "RED") 101] |}.
Proof.
  split; [|split].
  - destruct (fetch_failure "g1" 5 100 None (failed 404 "Not Found" 3)
                [answered (my_turn "RED") 4] 404 "Not Found" eq_refl)
      as (Hgone & _ & _).
    apply Hgone. reflexivity.
  - destruct (fetch_failure "g1" 5 100 None (failed 503 "busy" 3)
                [answered (my_turn "RED") 4] 503 "busy" eq_refl)
      as (_ & Hretry & _).
    refine (eq_trans (Hretry _ _) _).
    + lia.
    + simpl. lia.
    + vm_compute. reflexivity.
  - destruct (fetch_failure "g1" 5 100 None (failed 503 "busy" 100)
                [answered (my_turn "RED") 101] 503 "busy" eq_refl)
      as (_ & _ & Hlate).
    apply Hlate.
    + lia.
    + simpl. lia.
Defined.

Lemma fetch_exception_escapes_witness :
  wait_loop "g1" 5 100 None [garbled 3; answered (my_turn "RED") 4]
  = {| log := [];
       ended := Some (Uncaught "JSONDecodeError");
       unused := [answered (my_turn "RED") 4] |}
  ∧ wait_loop "g1" 5 100 None [garbled 3; answered (my_turn "RED") 4]
    ≠ {| log := [Sleep 5; Stderr "Waiting for your turn (current: RED)..."];
         ended := Some Break;
         unused := [] |}
  ∧ wait_loop "g1" 5 100 None [garbled 100; answered (my_turn "RED") 101]
    ≠ {| log := [Stderr "ERROR: Timeout (Expecting value)"];
         ended := Some (Exit 1);
         unused := [answered (my_turn "RED") 101] |}.
Proof.
  split; [|split].
  - exact (proj1 (fetch_exception_escapes "g1" 5 100 None (garbled 3)
                    [answered (my_turn "RED") 4] "JSONDecodeError" eq_refl)).
  - exact (proj1 (proj2 (fetch_exception_escapes "g1" 5 100 None (garbled 3)
                           [answered (my_turn "RED") 4] "JSONDecodeError" eq_refl))).
  - exact (proj2 (proj2 (fetch_exception_escapes "g1" 5 100 None (garbled 100)
                           [answered (my_turn "RED") 101] "JSONDecodeError" eq_refl))
             "ERROR: Timeout (Expecting value)").
Defined.

Lemma success_before_deadline_witness :
  ended (wait_loop "g1" 5 100 None [answered (won_by "BLUE") 500;
                                   answered (my_turn "RED") 501])
  = Some Return
  ∧ ended (wait_loop "g1" 5 100 (Some "turn") [answered (my_turn "RED") 500;
                                             answered (won_by "BLUE") 501])
    = Some Break
  ∧ 100 ≤ monotonic (answered (waiting_for "BLUE") 500).
Proof.
  split; [|split].
  - destruct (success_before_deadline "g1" 5 100 None (answered (won_by "BLUE") 500)
                [answered (my_turn "RED") 501] (list_to_map (won_by "BLUE")) eq_refl)
      as (Hover & _ & _).
    apply Hover. vm_compute. reflexivity.
  - destruct (success_before_deadline "g1" 5 100 (Some "turn")
                (answered (my_turn "RED") 500)
                [answered (won_by "BLUE") 501] (list_to_map (my_turn "RED")) eq_refl)
      as (_ & Hturn & _).
    apply Hturn; vm_compute; reflexivity.
  - destruct (success_before_deadline "g1" 5 100 (Some "turn")
                (answered (waiting_for "BLUE") 500)
                [] (list_to_map (waiting_for "BLUE")) eq_refl)
      as (_ & _ & Hexit).
    apply (Hexit 1). vm_compute. reflexivity.
Defined.

Lemma turn_notice_witness :
  wait_loop "g1" 5 100 (Some "lobby") [answered (my_turn "RED") 4]
  = {| log := [Stderr "Waiting for your turn (current: RED)..."];
       ended := Some Break;
       unused := [] |}
  ∧ wait_iteration "g1" 5 100 (Some "turn") (answered (waiting_for "BLUE") 4)
    = ([Sleep 5], Continue (Some "turn"))
  ∧ wait_iteration "g1" 5 100 (Some "turn") (answered (waiting_for "BLUE") 100)
    = ([Stderr "ERROR: Timeout waiting for turn"], Exit 1).
Proof.
  split; [|split].
  - destruct (turn_notice "g1" 5 100 (Some "lobby") (answered (my_turn "RED") 4) []
                (list_to_map (my_turn "RED")) eq_refl)
      as (Hturn & _ & _); [vm_compute; reflexivity | vm_compute; reflexivity |].
    refine (eq_trans (Hturn _) _); vm_compute; reflexivity.
  - destruct (turn_notice "g1" 5 100 (Some "turn") (answered (waiting_for "BLUE") 4) []
                (list_to_map (waiting_for "BLUE")) eq_refl)
      as (_ & Hwait & _); [vm_compute; reflexivity | vm_compute; reflexivity |].
    refine (eq_trans (Hwait _ _) _).
    + vm_compute. reflexivity.
    + simpl. lia.
    + vm_compute. reflexivity.
  - destruct (turn_notice "g1" 5 100 (Some "turn") (answered (waiting_for "BLUE") 100) []
                (list_to_map (waiting_for "BLUE")) eq_refl)
      as (_ & _ & Hlate); [vm_compute; reflexivity | vm_compute; reflexivity |].
    refine (eq_trans (Hlate _ _) _).
    + vm_compute. reflexivity.
    + simpl. lia.
    + vm_compute. reflexivity.
Defined.

(** C4 does not hold as stated: on the first poll of a started game
    that is already flagged as the agent's turn, the "Waiting for your
    turn" notice is printed on that very poll, before the loop stops. *)
Lemma notice_printed_on_my_turn :
  let p := answered (my_turn "RED") 4 in
  status_fetch p = Fetched (list_to_map (my_turn "RED"))
  ∧ truthy (get (list_to_map (my_turn "RED")) "started") = true
  ∧ truthy (get (list_to_map (my_turn "RED")) "your_turn") = true
  ∧ cmd_wait_loop "g1" 5 100 [p]
    = {| log := [Stderr "Waiting for your turn (current: RED)..."];
         ended := Some Break;
         unused := [] |}.
Proof. repeat split; vm_compute; reflexivity. Qed.

Lemma no_repeated_notice_witness :
  alternating None
    (omap notice_phase
       (log (wait_loop "g1" 5 100 None
               [answered in_lobby 1; answered in_lobby 2; failed 503 "busy" 3;
                answered (waiting_for "BLUE") 4; answered (waiting_for "WHITE") 5;
                answered (my_turn "RED") 6])))
  ∧ progress (list_to_map (waiting_for "WHITE")) (Some "lobby")
    = ([Stderr "Waiting for your turn (current: WHITE)..."], Some "turn")
  ∧ progress (list_to_map (waiting_for "WHITE")) (Some "turn")
    = ([], Some "turn").
Proof.
  destruct (no_repeated_notice "g1" 5 100 None
              [answered in_lobby 1; answered in_lobby 2; failed 503 "busy" 3;
               answered (waiting_for "BLUE") 4; answered (waiting_for "WHITE") 5;
               answered (my_turn "RED") 6]
              (list_to_map (waiting_for "WHITE"))) as (Hrun & Hsame & Hnew).
  split; [exact Hrun|]. split.
  - refine (eq_trans (proj1 (Hnew "lobby" _)) _).
    + vm_compute. discriminate.
    + vm_compute. reflexivity.
  - exact Hsame.
Defined.

Example notices_of_a_run :
  omap notice_phase
    (log (wait_loop "g1" 5 100 None
            [answered in_lobby 1; answered in_lobby 2; failed 503 "busy" 3;
             answered (waiting_for "BLUE") 4; answered (waiting_for "WHITE") 5;
             answered (my_turn "RED") 6]))
  = ["lobby"; "turn"].
Proof. vm_compute. reflexivity. Qed.

(* ================================================================== *)
(** * Further properties                                               *)
(* ================================================================== *)

(** ** Seats and hands *)

Lemma list_index_first (colors : list string) (color : string) (i : nat) :
  list_index colors color = Some i →
  colors !! i = Some color ∧ ∀ j, (j < i)%nat → colors !! j ≠ Some color.
Proof.
  revert i. induction colors as [|c colors IH]; intros i; simpl; [done|].
  destruct (String.eqb_spec c color) as [->|Hne].
  - intros [= <-]. split; [reflexivity | intros j Hj; lia].
  - destruct (list_index colors color) as [k|]; simpl; [|done].
    intros [= <-]. destruct (IH k eq_refl) as [Hat Hbefore].
    split; [exact Hat|].
    intros [|j] Hj; simpl; [congruence | apply Hbefore; lia].
Qed.

(** X1: [_find_idx] returns exactly -1 for a colour that is not seated,
    and otherwise the first position of [colors] that holds the colour,
    which is a valid index. *)
Theorem find_idx_first_seat (colors : list string) (color : string) :
  let idx := _find_idx colors color in
  (idx = -1 ∧ color ∉ colors)
  ∨ (0 ≤ idx < Z.of_nat (length colors)
     ∧ colors !! Z.to_nat idx = Some color
     ∧ ∀ j, (j < Z.to_nat idx)%nat → colors !! j ≠ Some color).
Proof.
  unfold _find_idx.
  destruct (list_index colors color) as [i|] eqn:Hidx.
  - right. destruct (list_index_first _ _ _ Hidx) as [Hat Hbefore].
    rewrite Nat2Z.id. split; [|done].
    apply lookup_lt_Some in Hat. lia.
  - left. split; [reflexivity | by apply list_index_None].
Qed.

Lemma my_resources_loop (ps : gmap string Z) (p : string) (kinds : list string)
    (acc : list (string * Z)) (total : Z) :
  fold_left
    (λ '(resources, total) r,
       let c := ps_get ps (p +:+ r +:+ "_IN_HAND") in
       (resources ++ [(r, c)], total + c))
    kinds (acc, total)
  = (acc ++ map (λ r, (r, ps_get ps (p +:+ r +:+ "_IN_HAND"))) kinds,
     total + foldr Z.add 0 (map (λ r, ps_get ps (p +:+ r +:+ "_IN_HAND")) kinds)).
Proof.
  revert acc total. induction kinds as [|r kinds IH]; intros acc total; simpl.
  - by rewrite app_nil_r, Z.add_0_r.
  - rewrite IH, <- app_assoc. simpl. f_equal. lia.
Qed.

Lemma my_status_Some (state : game_state) (color : string) (status : player_status) :
  _my_status state color = Some status →
  let ps := player_state state in
  let p := player_prefix (_find_idx (colors state) color) in
  0 ≤ _find_idx (colors state) color
  ∧ status = {|
      status_color := color;
      vp := ps_get ps (p +:+ "TREASURE_CHESTS");
      resources := (my_resources ps p).1;
      total_resources := (my_resources ps p).2;
      dev_cards := my_dev_cards ps p;
      buildings :=
        [("TIDE_POOLS", ps_get ps (p +:+ "TIDE_POOLS_AVAILABLE"));
         ("REEFS", ps_get ps (p +:+ "REEFS_AVAILABLE"));
         ("CURRENTS", ps_get ps (p +:+ "CURRENTS_AVAILABLE"))];
      longest_road := ps_flag ps (p +:+ "HAS_ROAD");
      largest_army := ps_flag ps (p +:+ "HAS_ARMY");
      road_length := ps_get ps (p +:+ "LONGEST_ROAD_LENGTH");
      knights := ps_get ps (p +:+ "PLAYED_LOBSTER_GUARD");
      has_rolled := ps_flag ps (p +:+ "HAS_ROLLED");
      played_dev := ps_flag ps (p +:+ "HAS_PLAYED_DEVELOPMENT_CARD_IN_TURN");
    |}.
Proof.
  intros H ps p. unfold _my_status in H. fold ps in H.
  destruct (Z.ltb_spec (_find_idx (colors state) color) 0); [done|].
  split; [done|]. subst p.
  destruct (my_resources _ _) as [res total]. simpl in *. congruence.
Qed.

Lemma status_hand (state : game_state) (color : string) (status : player_status) :
  _my_status state color = Some status →
  resources status
  = map (λ r, (r, ps_get (player_state state)
                    (player_prefix (_find_idx (colors state) color)
                     +:+ r +:+ "_IN_HAND")))
        RESOURCES
  ∧ total_resources status = foldr Z.add 0 (map snd (resources status)).
Proof.
  intros Hstatus. destruct (my_status_Some _ _ _ Hstatus) as [_ ->].
  unfold my_resources. rewrite my_resources_loop. simpl.
  split; [reflexivity | lia].
Qed.

Lemma sum_values_loop (res : list (string * Z)) (total : Z) :
  fold_left (λ acc '(_, v), acc + v) res total
  = total + foldr Z.add 0 (map snd res).
Proof.
  revert total. induction res as [|[k v] res IH]; intros total; simpl.
  - lia.
  - rewrite IH. lia.
Qed.

(** X2: the status of a seated player lists the five resource kinds in
    the order of [RESOURCES], each with the count read from the
    player's seat (zero when the key is missing), and
    [total_resources] is the sum of the listed counts. *)
Theorem my_status_hand (state : game_state) (color : string)
    (status : player_status) :
  _my_status state color = Some status →
  let p := player_prefix (_find_idx (colors state) color) in
  resources status
  = map (λ r, (r, default 0 (player_state state !! (p +:+ r +:+ "_IN_HAND"))))
        RESOURCES
  ∧ total_resources status = foldr Z.add 0 (map snd (resources status)).
Proof. intros Hstatus p. exact (status_hand _ _ _ Hstatus). Qed.

Lemma my_status_hand_witness :
  ∃ status,
    _my_status after_roll "RED" = Some status
    ∧ resources status
      = [("DRIFTWOOD", 0); ("CORAL", 0); ("SHRIMP", 0); ("KELP", 2); ("PEARL", 0)]
    ∧ total_resources status = 2.
Proof.
  eexists. split; [reflexivity|].
  destruct (my_status_hand after_roll "RED" _ eq_refl) as [Hres Htotal].
  split.
  - refine (eq_trans Hres _). vm_compute. reflexivity.
  - refine (eq_trans Htotal _). vm_compute. reflexivity.
Defined.

Lemma my_dev_cards_loop (ps : gmap string Z) (p : string) (kinds : list string)
    (dev : list (string * Z)) :
  fold_left
    (λ dev d,
       let c := ps_get ps (p +:+ d +:+ "_IN_HAND") in
       if 0 <? c then dev ++ [(d, c)] else dev)
    kinds dev
  = dev ++ map (λ d, (d, ps_get ps (p +:+ d +:+ "_IN_HAND")))
               (filter (λ d, 0 < ps_get ps (p +:+ d +:+ "_IN_HAND")) kinds).
Proof.
  revert dev. induction kinds as [|d kinds IH]; intros dev; simpl.
  - by rewrite app_nil_r.
  - rewrite IH, filter_cons.
    destruct (Z.ltb_spec 0 (ps_get ps (p +:+ d +:+ "_IN_HAND"))).
    + rewrite decide_True by done. simpl. by rewrite <- app_assoc.
    + rewrite decide_False by lia. reflexivity.
Qed.

(** X3: the status keeps exactly the development-card kinds held in a
    positive number, in the order of [DEV_CARDS], with their counts;
    kinds with a missing, zero or negative count are dropped, so every
    listed count is positive. *)
Theorem my_status_dev_cards (state : game_state) (color : string)
    (status : player_status) :
  _my_status state color = Some status →
  let p := player_prefix (_find_idx (colors state) color) in
  let held d := default 0 (player_state state !! (p +:+ d +:+ "_IN_HAND")) in
  dev_cards status = map (λ d, (d, held d)) (filter (λ d, 0 < held d) DEV_CARDS)
  ∧ Forall (λ kv, 0 < kv.2) (dev_cards status).
Proof.
  intros Hstatus p held. destruct (my_status_Some _ _ _ Hstatus) as [_ ->].
  fold p. cbn [dev_cards]. unfold my_dev_cards. rewrite my_dev_cards_loop.
  cbn [app]. split; [reflexivity|].
  apply Forall_map. simpl.
  eapply Forall_impl; [apply Forall_forall; intros d Hd;
                       apply list_elem_of_filter in Hd; exact (proj1 Hd)|].
  simpl. done.
Qed.


Lemma my_status_dev_cards_witness :
  ∃ status,
    _my_status holding_cards "BLUE" = Some status
    ∧ dev_cards status = [("LOBSTER_GUARD", 2); ("TREASURE_CHEST", 1)].
Proof.
  eexists. split; [reflexivity|].
  destruct (my_status_dev_cards holding_cards "BLUE" _ eq_refl) as [Hdev _].
  refine (eq_trans Hdev _). vm_compute. reflexivity.
Defined.

(** X7: the total that [_print_resources] prints for the hand of a
    status (which it adds up again from the counts) is the status's
    [total_resources]. *)
Theorem printed_total_is_total_resources (state : game_state) (color : string)
    (status : player_status) :
  _my_status state color = Some status →
  _print_resources (resources status)
  = [Stdout ("  " +:+ join " " (map (λ '(k, v), k +:+ ":" +:+ pretty v)
                                     (resources status))
             +:+ " (total:" +:+ pretty (total_resources status) +:+ ")")].
Proof.
  intros Hstatus. destruct (status_hand _ _ _ Hstatus) as [_ Htotal].
  unfold _print_resources. by rewrite sum_values_loop, Htotal.
Qed.

Lemma printed_total_is_total_resources_witness :
  ∃ status,
    _my_status after_roll "RED" = Some status
    ∧ _print_resources (resources status)
      = [Stdout "  DRIFTWOOD:0 CORAL:0 SHRIMP:0 KELP:2 PEARL:0 (total:2)"].
Proof.
  eexists. split; [reflexivity|].
  refine (eq_trans (printed_total_is_total_resources after_roll "RED" _ eq_refl) _).
  vm_compute. reflexivity.
Defined.

(** ** The per-player resource table *)

Lemma table_loop_lookup (f : string → Z) (kinds : list string)
    (tbl : gmap string Z) (k : string) :
  fold_left (λ tbl r, <[r := f r]> tbl) kinds tbl !! k
  = if decide (k ∈ kinds) then Some (f k) else tbl !! k.
Proof.
  revert tbl. induction kinds as [|r kinds IH]; intros tbl; cbn [fold_left].
  - rewrite decide_False by apply not_elem_of_nil. reflexivity.
  - rewrite IH. destruct (decide (k ∈ kinds)) as [Hin|Hout].
    + rewrite decide_True by (by right). reflexivity.
    + destruct (decide (r = k)) as [->|Hne].
      * rewrite decide_True by left. by rewrite lookup_insert_eq.
      * rewrite decide_False by (rewrite elem_of_cons; naive_solver).
        by rewrite lookup_insert_ne.
Qed.

Lemma players_loop_absent (g : nat → gmap string Z) (l : list string) (k : nat)
    (result : gmap string (gmap string Z)) (c : string) :
  c ∉ l →
  fold_left (λ result '(i, c), <[c := g i]> result) (enumerate_from k l) result !! c
  = result !! c.
Proof.
  revert k result. induction l as [|d l IH]; intros k result Hc; simpl; [done|].
  apply not_elem_of_cons in Hc as [Hne Hl].
  rewrite IH by done. by rewrite lookup_insert_ne.
Qed.

Lemma players_loop_last (g : nat → gmap string Z) (before after : list string)
    (k : nat) (result : gmap string (gmap string Z)) (c : string) :
  c ∉ after →
  fold_left (λ result '(i, c), <[c := g i]> result)
            (enumerate_from k (before ++ c :: after)) result !! c
  = Some (g (k + length before)%nat).
Proof.
  intros Hafter. revert k result.
  induction before as [|d before IH]; intros k result; simpl.
  - rewrite players_loop_absent by done.
    rewrite lookup_insert_eq. by rewrite Nat.add_0_r.
  - rewrite IH. do 2 f_equal. lia.
Qed.

(** X4: [_all_player_resources] maps exactly the seated colours.  A
    colour's table is the one read from its seat (from its last seat,
    should the colour be listed more than once), and a table holds the
    five resource kinds and nothing else, a missing key counting as
    zero. *)
Theorem all_player_resources_lookup (state : game_state) (c : string)
    (before after : list string) (r : string) :
  (c ∉ colors state → _all_player_resources state !! c = None)
  ∧ (colors state = before ++ c :: after → c ∉ after →
     ∃ tbl,
       _all_player_resources state !! c = Some tbl
       ∧ tbl !! r
         = if decide (r ∈ RESOURCES)
           then Some (default 0 (player_state state
                                 !! (player_prefix (Z.of_nat (length before))
                                     +:+ r +:+ "_IN_HAND")))
           else None).
Proof.
  unfold _all_player_resources, enumerate. split.
  - intros Hc.
    rewrite (players_loop_absent
               (λ i, resource_table (player_state state) (player_prefix (Z.of_nat i))))
      by done.
    apply lookup_empty.
  - intros -> Hafter. eexists. split.
    + apply (players_loop_last
               (λ i, resource_table (player_state state) (player_prefix (Z.of_nat i))));
        done.
    + unfold resource_table. cbn [Nat.add].
      rewrite (table_loop_lookup
                 (λ r, ps_get (player_state state)
                         (player_prefix (Z.of_nat (length before)) +:+ r +:+ "_IN_HAND"))).
      by rewrite lookup_empty.
Qed.

Lemma all_player_resources_lookup_witness :
  _all_player_resources after_roll !! "WHITE" = None
  ∧ ∃ tbl, _all_player_resources after_roll !! "BLUE" = Some tbl
           ∧ tbl !! "PEARL" = Some 1.
Proof.
  split.
  - apply (proj1 (all_player_resources_lookup after_roll "WHITE" [] [] "")).
    apply (bool_decide_unpack _). vm_compute. exact I.
  - destruct (proj2 (all_player_resources_lookup after_roll "BLUE" ["RED"] [] "PEARL"))
      as (tbl & Htbl & Hr).
    + reflexivity.
    + apply not_elem_of_nil.
    + exists tbl. split; [exact Htbl|].
      refine (eq_trans Hr _). vm_compute. reflexivity.
Defined.

(** ** Opponents *)

Lemma opponents_loop (ps : gmap string Z) (color : string) (l : list string)
    (k : nat) (result : list opponent) :
  fold_left
    (λ result '(i, c),
       if String.eqb c color then result
       else result ++ [opponent_summary ps i c])
    (enumerate_from k l) result
  = result ++ map (λ ic, opponent_summary ps ic.1 ic.2)
                  (filter (λ ic, ic.2 ≠ color) (enumerate_from k l)).
Proof.
  revert k result. induction l as [|c l IH]; intros k result; cbn [enumerate_from fold_left].
  - by rewrite app_nil_r.
  - rewrite IH, filter_cons. cbn [snd].
    destruct (String.eqb_spec c color) as [->|Hne].
    + by rewrite decide_False by (intros H; by apply H).
    + rewrite decide_True by done. by rewrite <- app_assoc.
Qed.

Lemma enumerate_filter_colors (color : string) (l : list string) (k : nat) :
  map snd (filter (λ ic : nat * string, ic.2 ≠ color) (enumerate_from k l))
  = filter (λ c, c ≠ color) l.
Proof.
  revert k. induction l as [|c l IH]; intros k; cbn [enumerate_from]; [done|].
  rewrite !filter_cons. cbn [snd].
  destruct (decide (c ≠ color)); cbn [map snd]; by rewrite IH.
Qed.

Lemma enumerate_lookup (l : list string) (k i : nat) (c : string) :
  (i, c) ∈ enumerate_from k l → (k ≤ i)%nat ∧ l !! (i - k)%nat = Some c.
Proof.
  revert k. induction l as [|d l IH]; intros k; cbn [enumerate_from].
  - by intros ?%elem_of_nil.
  - intros [[= -> ->]|Hin]%elem_of_cons.
    + split; [lia|]. by rewrite Nat.sub_diag.
    + destruct (IH _ Hin) as [Hle Hat]. split; [lia|].
      replace (i - k)%nat with (S (i - S k)) by lia. exact Hat.
Qed.

Lemma list_index_NoDup (l : list string) (i : nat) (c : string) :
  NoDup l → l !! i = Some c → list_index l c = Some i.
Proof.
  intros Hnd. revert i. induction Hnd as [|d l Hd _ IH]; intros i; [done|].
  destruct i as [|i]; simpl.
  - intros [= ->]. by rewrite String.eqb_refl.
  - intros Hat. destruct (String.eqb_spec d c) as [->|Hne].
    + destruct Hd. by eapply list_elem_of_lookup_2.
    + by rewrite (IH i Hat).
Qed.

Lemma sum_in_hand_foldr (ps : gmap string Z) (p : string) (kinds : list string) :
  sum_in_hand ps p kinds
  = foldr Z.add 0 (map (λ r, ps_get ps (p +:+ r +:+ "_IN_HAND")) kinds).
Proof.
  unfold sum_in_hand.
  assert (∀ acc, fold_left (λ acc k, acc + ps_get ps (p +:+ k +:+ "_IN_HAND")) kinds acc
                 = acc + foldr Z.add 0
                           (map (λ r, ps_get ps (p +:+ r +:+ "_IN_HAND")) kinds)) as H.
  { induction kinds as [|r kinds IH]; intros acc; simpl; [lia|]. rewrite IH. lia. }
  rewrite H. lia.
Qed.

Lemma filter_other_all (color : string) (l : list string) :
  color ∉ l → filter (λ c, c ≠ color) l = l.
Proof.
  induction l as [|c l IH]; [done|].
  intros [Hne Hl]%not_elem_of_cons.
  rewrite filter_cons_True by congruence. by rewrite IH.
Qed.

(** X5: [_opponents] lists the seats of [colors] that hold another
    colour, in board order: the colours of the summaries are [colors]
    with every occurrence of the given colour removed.  The given
    colour never appears, and when it is not seated every seat is
    listed. *)
Theorem opponents_are_the_other_seats (state : game_state) (color : string) :
  map o_color (_opponents state color) = filter (λ c, c ≠ color) (colors state)
  ∧ (color ∉ map o_color (_opponents state color))
  ∧ (color ∉ colors state → map o_color (_opponents state color) = colors state).
Proof.
  assert (map o_color (_opponents state color)
          = filter (λ c, c ≠ color) (colors state)) as Hcolors.
  { unfold _opponents, enumerate. rewrite opponents_loop. cbn [app].
    rewrite map_map. cbn [o_color opponent_summary].
    rewrite <- (enumerate_filter_colors color (colors state) 0).
    reflexivity. }
  rewrite Hcolors. split; [reflexivity|]. split.
  - intros [Hne _]%list_elem_of_filter. by apply Hne.
  - apply filter_other_all.
Qed.

Lemma opponents_are_the_other_seats_witness :
  map o_color (_opponents two_seats "WHITE") = ["RED"; "BLUE"]
  ∧ map o_color (_opponents two_seats "RED") = ["BLUE"].
Proof.
  destruct (opponents_are_the_other_seats two_seats "WHITE") as (_ & _ & Hall).
  destruct (opponents_are_the_other_seats two_seats "RED") as (Hothers & _).
  split.
  - apply Hall. apply (bool_decide_unpack _). vm_compute. exact I.
  - refine (eq_trans Hothers _). vm_compute. reflexivity.
Defined.

(** X6: when no colour is seated twice, the summary [_opponents] gives
    of a player agrees with the status [_my_status] computes for that
    player: same victory points, card total, knights and road length,
    and the tags are the player's longest-road and largest-army
    flags. *)
Theorem opponent_agrees_with_own_status (state : game_state) (color : string)
    (o : opponent) :
  NoDup (colors state) →
  o ∈ _opponents state color →
  ∃ status,
    _my_status state (o_color o) = Some status
    ∧ vp status = o_vp o
    ∧ total_resources status = o_cards o
    ∧ knights status = o_knights o
    ∧ road_length status = o_road_length o
    ∧ o_tags o
      = (if longest_road status then ["longest_road"] else [])
        ++ (if largest_army status then ["largest_army"] else []).
Proof.
  intros Hnd Ho. unfold _opponents, enumerate in Ho.
  rewrite opponents_loop in Ho. cbn [app] in Ho.
  apply list_elem_of_fmap in Ho as ([i c] & -> & Hic).
  apply list_elem_of_filter in Hic as [_ Hic].
  apply enumerate_lookup in Hic as [_ Hat]. rewrite Nat.sub_0_r in Hat.
  pose proof (list_index_NoDup _ _ _ Hnd Hat) as Hidx.
  cbn [fst snd o_color opponent_summary].
  assert (_find_idx (colors state) c = Z.of_nat i) as Hfind.
  { unfold _find_idx. by rewrite Hidx. }
  destruct (_my_status state c) as [status|] eqn:Hstatus.
  - exists status. split; [reflexivity|].
    destruct (status_hand _ _ _ Hstatus) as [Hres Htotal].
    destruct (my_status_Some _ _ _ Hstatus) as [_ Hrec].
    rewrite Hfind in Hrec, Hres.
    unfold opponent_summary. cbn [o_vp o_cards o_knights o_road_length o_tags].
    rewrite Htotal, Hres, sum_in_hand_foldr, map_map. cbn [snd].
    rewrite Hrec. cbn [vp knights road_length longest_road largest_army].
    done.
  - unfold _my_status in Hstatus. rewrite Hfind in Hstatus.
    destruct (Z.ltb_spec (Z.of_nat i) 0); [lia|].
    by destruct (my_resources _ _).
Qed.

Lemma opponent_agrees_with_own_status_witness :
  ∃ status,
    _my_status after_roll "BLUE" = Some status
    ∧ vp status = 0 ∧ total_resources status = 1.
Proof.
  destruct (opponent_agrees_with_own_status after_roll "RED"
              (opponent_summary (player_state after_roll) 1 "BLUE"))
    as (status & Hstatus & Hvp & Htotal & _).
  - apply (bool_decide_unpack _). vm_compute. exact I.
  - vm_compute. left.
  - exists status. split; [exact Hstatus|]. split.
    + rewrite Hvp. vm_compute. reflexivity.
    + rewrite Htotal. vm_compute. reflexivity.
Defined.

(** ** Runs of the poll loop *)

Lemma sleep_calls_app (l1 l2 : list event) :
  sleep_calls (l1 ++ l2) = sleep_calls l1 ++ sleep_calls l2.
Proof. unfold sleep_calls. by rewrite filter_app. Qed.

Lemma progress_no_sleep_no_stdout (status : gmap string json)
    (phase_shown : option string) :
  sleep_calls (progress status phase_shown).1 = []
  ∧ Forall (λ e, is_stdout e = false) (progress status phase_shown).1.
Proof.
  rewrite progress_by_phase. destruct (bool_decide _); simpl.
  - split; [reflexivity | constructor].
  - split; [reflexivity | repeat constructor].
Qed.

Section RunFacts.

Variable game_id : string.
Variables poll_interval deadline : Z.

Local Abbreviation body := (wait_iteration game_id poll_interval deadline).
Local Abbreviation run_of := (wait_loop game_id poll_interval deadline).

Lemma iteration_goes_on (phase_shown : option string) (p : poll) :
  ends_loop deadline p = false →
  ∃ out phase', body phase_shown p = (out, Continue phase')
                ∧ sleep_calls out = [Sleep poll_interval].
Proof.
  unfold ends_loop, wait_iteration.
  destruct (status_fetch p) as [status|code detail|exception]; [| |discriminate].
  - intros [[-> ->]%orb_false_elim ->]%orb_false_elim.
    pose proof (progress_no_sleep_no_stdout status phase_shown) as [Hs _].
    destruct (progress status phase_shown) as [notice phase'].
    eexists _, _. split; [reflexivity|].
    rewrite sleep_calls_app. simpl in Hs. rewrite Hs. reflexivity.
  - intros [-> ->]%orb_false_elim. by eexists _, _.
Qed.

Lemma iteration_stops (phase_shown : option string) (p : poll) :
  ends_loop deadline p = true →
  ∃ out stop, body phase_shown p = (out, stop)
              ∧ (∀ phase', stop ≠ Continue phase') ∧ sleep_calls out = [].
Proof.
  unfold ends_loop, wait_iteration.
  destruct (status_fetch p) as [status|code detail|exception].
  - intros Hend. destruct (truthy (get status "winning_color")).
    + eexists _, _. split; [reflexivity|]. split; [discriminate|].
      simpl. unfold sleep_calls.
      pose proof (final_scores_stdout (get status "winning_color") (final_state p)) as Hout.
      induction Hout as [|e l [text ->] _ IH]; [reflexivity | exact IH].
    + pose proof (progress_no_sleep_no_stdout status phase_shown) as [Hs _].
      destruct (progress status phase_shown) as [notice phase'].
      simpl in Hs, Hend.
      destruct (truthy (get status "your_turn")).
      * eexists _, _. split; [reflexivity|]. split; [discriminate | exact Hs].
      * simpl in Hend. rewrite Hend.
        eexists _, _. split; [reflexivity|]. split; [discriminate|].
        rewrite sleep_calls_app, Hs. reflexivity.
  - intros Hend. destruct (code =? 404).
    + by eexists _, _.
    + simpl in Hend. rewrite Hend. by eexists _, _.
  - intros _. by eexists _, _.
Qed.

(** X8: the loop polls on, calling [time.sleep] with the poll interval
    once for each poll that does not end it and with nothing else,
    exactly until the first poll that is a 404, whose fetch raises an
    exception other than [APIError], that carries a winning colour or
    the your-turn flag, or that is read once the deadline has been
    reached: it stops at that poll without sleeping and asks for no
    later one; a script without such a poll is consumed whole and
    leaves the loop polling. *)
Theorem loop_stops_at_first_ending_poll (phase_shown : option string)
    (before after : list poll) (p : poll) :
  Forall (λ q, ends_loop deadline q = false) before →
  (ends_loop deadline p = true →
   let run := run_of phase_shown (before ++ p :: after) in
   (∃ stop, ended run = Some stop) ∧ unused run = after
   ∧ sleep_calls (log run) = replicate (length before) (Sleep poll_interval))
  ∧ (let run := run_of phase_shown before in
     ended run = None ∧ unused run = []
     ∧ sleep_calls (log run) = replicate (length before) (Sleep poll_interval)).
Proof.
  intros Hbefore. revert phase_shown.
  induction Hbefore as [|q before Hq _ IH]; intros phase_shown.
  - split; [|done]. intros Hend.
    destruct (iteration_stops phase_shown p Hend) as (out & stop & Hit & Hstop & Hsl).
    simpl. rewrite Hit.
    destruct stop; try (by eauto). by destruct (Hstop phase_shown0).
  - destruct (iteration_goes_on phase_shown q Hq) as (out & phase' & Hit & Hsl).
    destruct (IH phase') as [IHend IHrun].
    cbn [app wait_loop]. rewrite Hit. cbn [log ended unused length replicate].
    rewrite !sleep_calls_app, Hsl. split.
    + intros Hend. destruct (IHend Hend) as (Hstop & Hun & Hs).
      split; [exact Hstop|]. split; [exact Hun|]. rewrite Hs. reflexivity.
    + destruct IHrun as (Hnone & Hun & Hs).
      split; [exact Hnone|]. split; [exact Hun|]. rewrite Hs. reflexivity.
Qed.

(** X9: the loop writes to standard output only when the game is over:
    a run that does not end by [return] has nothing but standard-error
    lines and sleeps in its log. *)
Theorem stdout_only_on_game_over (phase_shown : option string) (script : list poll) :
  ended (run_of phase_shown script) ≠ Some Return →
  Forall (λ e, is_stdout e = false) (log (run_of phase_shown script)).
Proof.
  revert phase_shown. induction script as [|p script IH]; intros phase_shown; [constructor|].
  simpl. unfold wait_iteration.
  destruct (status_fetch p) as [status|code detail|exception]; [| |constructor].
  - destruct (truthy (get status "winning_color")); [done|].
    pose proof (progress_no_sleep_no_stdout status phase_shown) as [_ Hout].
    destruct (progress status phase_shown) as [notice phase'].
    simpl in Hout.
    destruct (truthy (get status "your_turn")); [by intros _|].
    destruct (deadline <=? monotonic p); simpl.
    + intros _. apply Forall_app. split; [done | repeat constructor].
    + intros Hend. rewrite !Forall_app.
      split; [split; [done | repeat constructor] | by apply IH].
  - destruct (code =? 404); [repeat constructor|].
    destruct (deadline <=? monotonic p); simpl; [repeat constructor|].
    intros Hend. constructor; [reflexivity | by apply IH].
Qed.

(** X10: whenever the poll loop itself ends the process, by
    [sys.exit], the exit status is 1 and the last thing the loop wrote
    is an "ERROR: ..." line on standard error.  A wait that ends with an
    exception of the status fetch uncaught is not such an exit: the
    loop wrote no error line for it, the last thing in its log, if
    there is any, being a sleep of the poll interval. *)
Theorem loop_exit_reports_error (phase_shown : option string) (script : list poll) :
  let run := run_of phase_shown script in
  (∀ code, ended run = Some (Exit code) →
     code = 1 ∧ ∃ text, last (log run) = Some (Stderr ("ERROR: " +:+ text)))
  ∧ (∀ exception, ended run = Some (Uncaught exception) →
       last (log run) = None ∨ last (log run) = Some (Sleep poll_interval)).
Proof.
  cbv zeta. split.
  - intros code.
    revert phase_shown. induction script as [|p script IH]; intros phase_shown; [done|].
    simpl. unfold wait_iteration.
    destruct (status_fetch p) as [status|c detail|exception]; [| |done].
    + destruct (truthy (get status "winning_color")); [done|].
      destruct (progress status phase_shown) as [notice phase'].
      destruct (truthy (get status "your_turn")); [done|].
      destruct (deadline <=? monotonic p); simpl.
      * intros [= <-]. split; [reflexivity|]. eexists. by rewrite last_snoc.
      * intros Hend. destruct (IH _ Hend) as [-> [text Hlast]].
        split; [reflexivity|]. exists text.
        rewrite last_app, Hlast. reflexivity.
    + destruct (c =? 404); simpl.
      * intros [= <-]. split; [reflexivity|]. by eexists.
      * destruct (deadline <=? monotonic p); simpl.
        -- intros [= <-]. split; [reflexivity|]. by eexists.
        -- intros Hend. destruct (IH _ Hend) as [-> [text Hlast]].
           split; [reflexivity|]. exists text.
           change (Sleep poll_interval :: ?l) with ([Sleep poll_interval] ++ l).
           rewrite last_app, Hlast. reflexivity.
  - intros exception.
    revert phase_shown. induction script as [|p script IH]; intros phase_shown; [done|].
    simpl. unfold wait_iteration.
    destruct (status_fetch p) as [status|c detail|exc]; [| |by left].
    + destruct (truthy (get status "winning_color")); [done|].
      destruct (progress status phase_shown) as [notice phase'].
      destruct (truthy (get status "your_turn")); [done|].
      destruct (deadline <=? monotonic p); simpl; [done|].
      intros Hend. right. rewrite last_app.
      destruct (IH _ Hend) as [-> | ->]; [by rewrite last_snoc | reflexivity].
    + destruct (c =? 404); simpl; [done|].
      destruct (deadline <=? monotonic p); simpl; [done|].
      intros Hend. right.
      change (Sleep poll_interval :: ?l) with ([Sleep poll_interval] ++ l).
      rewrite last_app.
      destruct (IH _ Hend) as [-> | ->]; reflexivity.
Qed.

End RunFacts.

Lemma loop_stops_at_first_ending_poll_witness :
  unused (wait_loop "g1" 5 100 None
            [answered in_lobby 1; failed 503 "busy" 2; answered (waiting_for "BLUE") 3;
             garbled 4; answered (won_by "BLUE") 5])
  = [answered (won_by "BLUE") 5]
  ∧ sleep_calls (log (wait_loop "g1" 5 100 None
                        [answered in_lobby 1; failed 503 "busy" 2;
                         answered (waiting_for "BLUE") 3;
                         garbled 4; answered (won_by "BLUE") 5]))
    = [Sleep 5; Sleep 5; Sleep 5].
Proof.
  destruct (loop_stops_at_first_ending_poll "g1" 5 100 None
              [answered in_lobby 1; failed 503 "busy" 2; answered (waiting_for "BLUE") 3]
              [answered (won_by "BLUE") 5] (garbled 4))
    as [Hstop _].
  - repeat constructor.
  - destruct Hstop as (_ & Hunused & Hsleeps); [reflexivity|].
    split; [exact Hunused | exact Hsleeps].
Defined.

Lemma stdout_only_on_game_over_witness :
  Forall (λ e, is_stdout e = false)
    (log (wait_loop "g1" 5 100 None
            [answered in_lobby 1; answered (waiting_for "BLUE") 3;
             answered (my_turn "RED") 4])).
Proof.
  apply stdout_only_on_game_over. vm_compute. discriminate.
Defined.

Lemma loop_exit_reports_error_witness :
  (∃ text,
     last (log (wait_loop "g1" 5 100 None
                  [answered in_lobby 1; answered (waiting_for "BLUE") 100]))
     = Some (Stderr ("ERROR: " +:+ text)))
  ∧ (last (log (wait_loop "g1" 5 100 None [answered in_lobby 1; garbled 2])) = None
     ∨ last (log (wait_loop "g1" 5 100 None [answered in_lobby 1; garbled 2]))
       = Some (Sleep 5)).
Proof.
  split.
  - apply (proj1 (loop_exit_reports_error "g1" 5 100 None
                    [answered in_lobby 1; answered (waiting_for "BLUE") 100]) 1).
    vm_compute. reflexivity.
  - apply (proj2 (loop_exit_reports_error "g1" 5 100 None
                    [answered in_lobby 1; garbled 2]) "JSONDecodeError").
    vm_compute. reflexivity.
Defined.

Lemma enumerate_map_lookup {B} (f : nat * string → B) (l : list string)
    (k i : nat) (c : string) :
  l !! i = Some c → map f (enumerate_from k l) !! i = Some (f ((k + i)%nat, c)).
Proof.
  revert k i. induction l as [|d l IH]; intros k i; [done|].
  destruct i as [|i]; cbn [enumerate_from map].
  - intros [= ->]. by rewrite Nat.add_0_r.
  - intros Hat. rewrite <- Nat.add_succ_comm. exact (IH (S k) i Hat).
Qed.

Lemma enumerate_from_length {A} (l : list A) (k : nat) :
  length (enumerate_from k l) = length l.
Proof. revert k. induction l as [|x l IH]; intros k; simpl; [done | by rewrite IH]. Qed.

(** X11: a poll whose status carries a winning colour prints the
    "GAME OVER" header and the winner, then ends the wait normally,
    whether or not the final state can be fetched.  When that fetch
    fails nothing more is printed; when it succeeds the "Final Scores"
    header follows with one line per seat, in seat order, giving the
    seat's colour and victory points (zero when the key is missing)
    and marking exactly the seats whose colour is the winner. *)
Theorem game_over_report (game_id : string) (poll_interval deadline : Z)
    (phase_shown : option string) (p : poll) (script : list poll)
    (status : gmap string json) :
  status_fetch p = Fetched status →
  truthy (get status "winning_color") = true →
  let run := wait_loop game_id poll_interval deadline phase_shown (p :: script) in
  let winner := get status "winning_color" in
  ended run = Some Return
  ∧ take 2 (log run)
    = [Stdout (nl +:+ "=== GAME OVER ==="); Stdout ("  Winner: " +:+ str winner)]
  ∧ (final_state p = None → length (log run) = 2%nat)
  ∧ (∀ state, final_state p = Some state →
       length (log run) = (3 + length (colors state))%nat
       ∧ log run !! 2%nat = Some (Stdout (nl +:+ "--- Final Scores ---"))
       ∧ ∀ i c, colors state !! i = Some c →
           log run !! (3 + i)%nat
           = Some (Stdout ("  " +:+ c +:+ ": "
                           +:+ pretty (default 0 (player_state state
                                                  !! ("P" +:+ pretty (Z.of_nat i)
                                                      +:+ "_TREASURE_CHESTS")))
                           +:+ " VP"
                           +:+ (if eq_str winner c then " <-- WINNER" else "")))).
Proof.
  intros Hfetch Hwin run winner. subst run winner.
  simpl. unfold wait_iteration. rewrite Hfetch, Hwin. cbn [log ended].
  split; [reflexivity|]. split; [reflexivity|]. split.
  - intros ->. reflexivity.
  - intros state ->. cbn [final_scores _section _header app length].
    unfold enumerate. rewrite length_map, enumerate_from_length.
    split; [reflexivity|]. split; [reflexivity|].
    intros i c Hat.
    exact (enumerate_map_lookup _ _ 0 i c Hat).
Qed.

Lemma game_over_report_witness :
  log (wait_loop "g1" 5 100 None [finished "BLUE" 500 (Some final_table)])
  !! 4%nat
  = Some (Stdout "  BLUE: 10 VP <-- WINNER")
  ∧ length (log (wait_loop "g1" 5 100 None [finished "BLUE" 500 None])) = 2%nat.
Proof.
  split.
  - destruct (game_over_report "g1" 5 100 None
                (finished "BLUE" 500 (Some final_table)) []
                (list_to_map (won_by "BLUE")) eq_refl)
      as (_ & _ & _ & Hscores); [vm_compute; reflexivity|].
    destruct (Hscores final_table eq_refl) as (_ & _ & Hline).
    refine (eq_trans (Hline 1%nat "BLUE" eq_refl) _). vm_compute. reflexivity.
  - destruct (game_over_report "g1" 5 100 None (finished "BLUE" 500 None) []
                (list_to_map (won_by "BLUE")) eq_refl)
      as (_ & _ & Hnone & _); [vm_compute; reflexivity|].
    apply Hnone. reflexivity.
Defined.

(** ** Roll result *)

Lemma diff_sum_filter (pre post : gmap string Z) (kinds : list string) :
  foldr Z.add 0 (map (diff_of pre post)
                     (filter (λ res, diff_of pre post res ≠ 0) kinds))
  = foldr Z.add 0 (map (λ res, default 0 (post !! res)) kinds)
    - foldr Z.add 0 (map (λ res, default 0 (pre !! res)) kinds).
Proof.
  induction kinds as [|res kinds IH]; [reflexivity|].
  rewrite filter_cons. cbn [map foldr].
  destruct (decide (diff_of pre post res ≠ 0)) as [Hne|Heq].
  - cbn [map foldr]. rewrite IH. unfold diff_of. lia.
  - rewrite IH. unfold diff_of in *. lia.
Qed.

(** X12: the differences the roll report lists for a player add up to
    the change of the player's hand: the listed kinds are those that
    changed, each shown with its difference, and the sum of these
    differences is the hand size after the roll minus the hand size
    before it. *)
Theorem reported_gains_add_up (pre post : gmap string Z) :
  gains_of pre post
  = map (λ res, gain_text (diff_of pre post res) res) (changed pre post)
  ∧ foldr Z.add 0 (map (diff_of pre post) (changed pre post))
    = hand_size post - hand_size pre.
Proof.
  split; [apply gains_of_changed|]. apply diff_sum_filter.
Qed.

(** X13: when the most recent roll record carries a two-element value,
    the report adds the two elements as Python does: integers and
    booleans (true counting 1) give the "a + b = sum" line, and any
    other element makes the whole of [_print_roll_result] fail with a
    [TypeError], so that no resource section is printed either. *)
Theorem roll_pair_sum (state : game_state)
    (pre_resources : option (gmap string (gmap string Z)))
    (older newer : list json) (r a b : json) :
  action_records state = older ++ r :: newer →
  is_roll r = true →
  Forall (λ r, is_roll r = false) newer →
  action_value r = JList [a; b] →
  (∀ x y, as_int a = Ok x → as_int b = Ok y →
     roll_line (action_records state)
     = Ok [Stdout ("  Rolled: " +:+ str a +:+ " + " +:+ str b +:+ " = "
                   +:+ pretty (x + y))])
  ∧ (as_int a = Raise TypeError ∨ as_int b = Raise TypeError →
     _print_roll_result state pre_resources = Raise TypeError).
Proof.
  intros Hrecords Hr Hnewer Hvalue.
  assert (roll_line (action_records state)
          = (total ← Py.sum [a; b];
             Ok [Stdout ("  Rolled: " +:+ str a +:+ " + " +:+ str b +:+ " = "
                         +:+ pretty total)])) as Hline.
  { unfold roll_line.
    by rewrite Hrecords, (scan_roll_most_recent _ _ _ Hr Hnewer), Hvalue. }
  split.
  - intros x y Ha Hb. rewrite Hline. unfold Py.sum. cbn [sum_from].
    rewrite Ha. cbn [bind]. rewrite Hb. reflexivity.
  - intros Hbad. unfold _print_roll_result. rewrite Hline.
    unfold Py.sum. cbn [sum_from].
    destruct Hbad as [Ha|Hb].
    + by rewrite Ha.
    + rewrite Hb. by destruct (as_int a) as [z|[]].
Qed.

Lemma roll_pair_sum_witness :
  roll_line (action_records (rolled_with (JList [JBool true; JInt 6])))
  = Ok [Stdout "  Rolled: True + 6 = 7"]
  ∧ _print_roll_result (rolled_with (JList [JInt 3; JStr "4"]))
      (Some (_all_player_resources before_roll))
    = Raise TypeError.
Proof.
  split.
  - destruct (roll_pair_sum (rolled_with (JList [JBool true; JInt 6])) None []
                [JList [JStr "RED"; JStr "END_TIDE"; JNull]]
                (JList [JStr "RED"; JStr "ROLL_THE_SHELLS"; JList [JBool true; JInt 6]])
                (JBool true) (JInt 6) eq_refl eq_refl) as [Hsum _].
    + repeat constructor.
    + reflexivity.
    + apply (Hsum 1 6); reflexivity.
  - destruct (roll_pair_sum (rolled_with (JList [JInt 3; JStr "4"]))
                (Some (_all_player_resources before_roll)) []
                [JList [JStr "RED"; JStr "END_TIDE"; JNull]]
                (JList [JStr "RED"; JStr "ROLL_THE_SHELLS"; JList [JInt 3; JStr "4"]])
                (JInt 3) (JStr "4") eq_refl eq_refl) as [_ Hbad].
    + repeat constructor.
    + reflexivity.
    + apply Hbad. right. reflexivity.
Defined.

(** ** History lines *)

(** X14: a history record of at least two elements is shown as
    "color: action", followed by its third element as compact JSON
    unless that element is missing, null or the empty string: values
    such as 0, false or an empty list are shown.  Elements beyond the
    third are ignored. *)
Theorem history_line_value (color action v : json) (rest : list json) :
  history_line (JList [color; action])
  = "  " +:+ str color +:+ ": " +:+ str action
  ∧ (v = JNull ∨ v = JStr "" →
     history_line (JList (color :: action :: v :: rest))
     = "  " +:+ str color +:+ ": " +:+ str action)
  ∧ (v ≠ JNull → v ≠ JStr "" →
     history_line (JList (color :: action :: v :: rest))
     = "  " +:+ str color +:+ ": " +:+ str action +:+ " " +:+ dumps v).
Proof.
  split; [reflexivity|]. split.
  - intros [->| ->]; reflexivity.
  - intros Hnull Hempty. unfold history_line.
    destruct v as [|b|z|s|l|kvs]; try done.
    cbn [is_None eq_str].
    destruct (String.eqb_spec s ""); [congruence|]. reflexivity.
Qed.

Lemma history_line_value_witness :
  history_line (JList [JStr "RED"; JStr "PLAY_TIDAL_MONOPOLY"; JStr ""]) 
  = "  RED: PLAY_TIDAL_MONOPOLY"
  ∧ history_line (JList [JStr "RED"; JStr "BUILD_TIDE_POOL"; JInt 0; JNull])
    = "  RED: BUILD_TIDE_POOL 0".
Proof.
  destruct (history_line_value (JStr "RED") (JStr "PLAY_TIDAL_MONOPOLY") (JStr "") [])
    as (_ & Hempty & _).
  destruct (history_line_value (JStr "RED") (JStr "BUILD_TIDE_POOL") (JInt 0) [JNull])
    as (_ & _ & Hshown).
  split.
  - apply Hempty. right. reflexivity.
  - refine (eq_trans (Hshown _ _) _); [discriminate | discriminate |].
    vm_compute. reflexivity.
Defined.

(** ** Chat *)

Lemma chat_loop_all (messages : list (gmap string json)) (texts : list string) :
  mapM chat_line messages = Some texts →
  chat_loop messages = (map Stdout texts, None).
Proof.
  revert texts. induction messages as [|m messages IH]; intros texts; simpl.
  - by intros [= <-].
  - destruct (chat_line m) as [text|]; simpl; [|done].
    destruct (mapM chat_line messages) as [texts'|]; simpl; [|done].
    intros [= <-]. by rewrite (IH texts' eq_refl).
Qed.

Lemma chat_loop_stops (shown rest : list (gmap string json))
    (bad : gmap string json) (texts : list string) :
  mapM chat_line shown = Some texts →
  chat_line bad = None →
  chat_loop (shown ++ bad :: rest) = (map Stdout texts, Some (KeyError "message")).
Proof.
  intros Hshown Hbad. revert texts Hshown.
  induction shown as [|m shown IH]; intros texts; simpl.
  - intros [= <-]. by rewrite Hbad.
  - destruct (chat_line m) as [text|]; simpl; [|done].
    destruct (mapM chat_line shown) as [texts'|]; simpl; [|done].
    intros [= <-]. by rewrite (IH texts' eq_refl).
Qed.

(** X15: [_print_chat] prints nothing for an empty list.  Otherwise it
    prints the header with the number of messages and then one line per
    message.  A message without a ["message"] key raises a [KeyError]:
    the header (still counting every message) and the lines of the
    messages before it have been printed, the later ones are not. *)
Theorem chat_report (label : string) (messages shown rest : list (gmap string json))
    (bad : gmap string json) (texts : list string) :
  _print_chat [] label = ([], None)
  ∧ (messages ≠ [] → mapM chat_line messages = Some texts →
     _print_chat messages label
     = (_section (label +:+ " (" +:+ pretty (Z.of_nat (length messages))
                  +:+ " messages)")
        ++ map Stdout texts, None))
  ∧ (mapM chat_line shown = Some texts → bad !! "message" = None →
     _print_chat (shown ++ bad :: rest) label
     = (_section (label +:+ " ("
                  +:+ pretty (Z.of_nat (length (shown ++ bad :: rest)))
                  +:+ " messages)")
        ++ map Stdout texts, Some (KeyError "message"))).
Proof.
  split; [reflexivity|]. split.
  - intros Hne Hall. destruct messages as [|m messages]; [done|].
    unfold _print_chat. by rewrite (chat_loop_all _ _ Hall).
  - intros Hshown Hbad.
    assert (chat_line bad = None) as Hline by (unfold chat_line; by rewrite Hbad).
    pose proof (chat_loop_stops shown rest bad texts Hshown Hline) as Hloop.
    unfold _print_chat. destruct (shown ++ bad :: rest) eqn:Hl.
    + by destruct shown.
    + by rewrite Hloop.
Qed.

Lemma chat_report_witness :
  _print_chat
    [chat_message [("index", JInt 4); ("name", JStr "Pinchy"); ("message", JStr "hi")];
     chat_message [("index", JInt 5); ("color", JStr "BLUE"); ("message", JStr "gg")]]
    "New Chat"
  = ([Stdout (nl +:+ "--- New Chat (2 messages) ---");
      Stdout "  [4] Pinchy: hi"; Stdout "  [5] BLUE: gg"], None)
  ∧ _print_chat
      [chat_message [("name", JNull); ("color", JStr "RED"); ("message", JStr "yo")];
       chat_message [("index", JInt 6); ("color", JStr "BLUE")];
       chat_message [("index", JInt 7); ("message", JStr "late")]]
      "Chat"
    = ([Stdout (nl +:+ "--- Chat (3 messages) ---"); Stdout "  [] None: yo"],
       Some (KeyError "message")).
Proof.
  split.
  - destruct (chat_report "New Chat"
                [chat_message [("index", JInt 4); ("name", JStr "Pinchy");
                               ("message", JStr "hi")];
                 chat_message [("index", JInt 5); ("color", JStr "BLUE");
                               ("message", JStr "gg")]]
                [] [] ∅ ["  [4] Pinchy: hi"; "  [5] BLUE: gg"]) as (_ & Hall & _).
    refine (eq_trans (Hall _ _) _).
    + discriminate.
    + vm_compute. reflexivity.
    + vm_compute. reflexivity.
  - destruct (chat_report "Chat" []
                [chat_message [("name", JNull); ("color", JStr "RED");
                               ("message", JStr "yo")]]
                [chat_message [("index", JInt 7); ("message", JStr "late")]]
                (chat_message [("index", JInt 6); ("color", JStr "BLUE")])
                ["  [] None: yo"]) as (_ & _ & Hstops).
    refine (eq_trans (Hstops _ _) _).
    + vm_compute. reflexivity.
    + vm_compute. reflexivity.
    + vm_compute. reflexivity.
Defined.

(** ** Grouping of actions *)

Lemma foldM_snoc {A B} (f : A → B → result A) (acc : A) (l : list B) (x : B) :
  foldM f acc (l ++ [x]) = (acc' ← foldM f acc l; f acc' x).
Proof.
  revert acc. induction l as [|y l IH]; intros acc; simpl.
  - by destruct (f acc x).
  - destruct (f acc y) as [acc'|e]; simpl; [apply IH | reflexivity].
Qed.

Lemma group_append_known (f : string → list json) (ts : list string)
    (ta : string) (v : json) :
  NoDup ts → ta ∈ ts →
  group_append (map (λ t, (JStr t, f t)) ts) (JStr ta) v
  = map (λ t, (JStr t, if decide (t = ta) then f t ++ [v] else f t)) ts.
Proof.
  induction 1 as [|t ts Ht Hnd IH]; [by intros ?%elem_of_nil|].
  intros Hin. cbn [map group_append key_eqb].
  destruct (String.eqb_spec t ta) as [->|Hne].
  - rewrite decide_True by done. f_equal.
    apply map_ext_in. intros t' Ht'%list_elem_of_In.
    rewrite decide_False; [done | intros ->; contradiction].
  - rewrite decide_False by done. f_equal. apply IH.
    apply elem_of_cons in Hin as [->|]; [contradiction | done].
Qed.

Lemma group_append_new (f : string → list json) (ts : list string)
    (ta : string) (v : json) :
  ta ∉ ts →
  group_append (map (λ t, (JStr t, f t)) ts) (JStr ta) v
  = map (λ t, (JStr t, f t)) ts ++ [(JStr ta, [v])].
Proof.
  induction ts as [|t ts IH]; [reflexivity|].
  intros [Hne Hts]%not_elem_of_cons. cbn [map group_append key_eqb app].
  destruct (String.eqb_spec t ta) as [->|_]; [done|]. by rewrite IH.
Qed.

Lemma payloads_of_snoc (t : string) (actions : list json) (a : json) :
  payloads_of t (actions ++ [a])
  = payloads_of t actions
    ++ (if decide (type_name a = Some t) then [action_value a] else []).
Proof.
  unfold payloads_of. rewrite filter_app, map_app. f_equal.
  rewrite filter_cons, filter_nil. by destruct (decide _).
Qed.

Lemma payloads_of_unseen (t : string) (actions : list json) :
  t ∉ omap type_name actions → payloads_of t actions = [].
Proof.
  intros Hout. unfold payloads_of.
  induction actions as [|a actions IH]; [reflexivity|].
  rewrite filter_cons. destruct (decide (type_name a = Some t)) as [Ha|Ha].
  - destruct Hout. cbn [omap list_omap]. rewrite Ha. left.
  - apply IH. intros Hin. apply Hout. cbn [omap list_omap].
    destruct (type_name a); [by right | done].
Qed.

Lemma distinct_types_seen (actions : list json) (t : string) :
  t ∈ distinct_types actions ↔ t ∈ omap type_name actions.
Proof.
  unfold distinct_types. rewrite add_strs_elem_of, elem_of_nil. naive_solver.
Qed.

(** X16: the grouping loop of [_print_actions] never merges two
    different action types and loses no action: for actions whose type
    tag is a string, the groups are the distinct type tags in order of
    first appearance, no tag twice, each with the payloads of all the
    actions of that type in their original order (an absent payload
    counting as null). *)
Theorem grouping_by_type (actions : list json) :
  Forall (λ a, is_Some (type_name a)) actions →
  foldM group_action [] actions
  = Ok (map (λ t, (JStr t, payloads_of t actions)) (distinct_types actions))
  ∧ NoDup (distinct_types actions)
  ∧ ∀ a t, a ∈ actions → type_name a = Some t →
      t ∈ distinct_types actions ∧ action_value a ∈ payloads_of t actions.
Proof.
  intros Hall. split; [|split].
  - induction actions as [|a actions IH] using rev_ind; [reflexivity|].
    apply Forall_app in Hall as [Hall Ha].
    apply Forall_singleton in Ha as [ta Hta].
    rewrite foldM_snoc, (IH Hall). cbn [mbind result_bind bind].
    unfold group_action.
    assert (action_type a = JStr ta) as Htype.
    { unfold type_name in Hta. by destruct (action_type a); simplify_eq. }
    rewrite Htype. cbn [hashable]. f_equal.
    assert (distinct_types (actions ++ [a]) = add_str (distinct_types actions) ta)
      as Hdt.
    { unfold distinct_types. rewrite omap_app, fold_left_app.
      cbn [omap list_omap]. by rewrite Hta. }
    rewrite Hdt. unfold add_str.
    destruct (decide (ta ∈ distinct_types actions)) as [Hin|Hout].
    + rewrite group_append_known;
        [|apply add_strs_NoDup, NoDup_nil_2 | done].
      apply map_ext. intros t. rewrite payloads_of_snoc, Hta.
      destruct (decide (t = ta)) as [->|Hne].
      * by rewrite decide_True.
      * rewrite decide_False by congruence. by rewrite app_nil_r.
    + rewrite group_append_new by done. rewrite map_app. cbn [map].
      f_equal.
      * apply map_ext_in. intros t Ht%list_elem_of_In.
        rewrite payloads_of_snoc, Hta.
        rewrite decide_False; [by rewrite app_nil_r | intros [= ->]; contradiction].
      * rewrite payloads_of_snoc, Hta, decide_True by done.
        rewrite payloads_of_unseen; [done|]. by rewrite <- distinct_types_seen.
  - apply add_strs_NoDup, NoDup_nil_2.
  - intros a t Ha Ht. split.
    + apply distinct_types_seen, list_elem_of_omap. eauto.
    + unfold payloads_of. apply list_elem_of_fmap. exists a. split; [done|].
      apply list_elem_of_filter. done.
Qed.

Lemma grouping_by_type_witness :
  foldM group_action []
    [mine "RED" "BUILD_CURRENT" (JList [JInt 3; JInt 7]);
     mine "RED" "END_TIDE" JNull;
     mine "RED" "BUILD_CURRENT" (JList [JInt 4; JInt 7]);
     JList [JStr "RED"; JStr "END_TIDE"]]
  = Ok [(JStr "BUILD_CURRENT", [JList [JInt 3; JInt 7]; JList [JInt 4; JInt 7]]);
        (JStr "END_TIDE", [JNull; JNull])].
Proof.
  destruct (grouping_by_type
              [mine "RED" "BUILD_CURRENT" (JList [JInt 3; JInt 7]);
               mine "RED" "END_TIDE" JNull;
               mine "RED" "BUILD_CURRENT" (JList [JInt 4; JInt 7]);
               JList [JStr "RED"; JStr "END_TIDE"]]) as (Hgroups & _).
  - repeat constructor; by eexists.
  - refine (eq_trans Hgroups _). vm_compute. reflexivity.
Defined.

(** X17: a group whose payloads are all absent is shown once, as the
    bare type name (followed by the usage hint when the type has one),
    however many actions of that type there are. *)
Theorem bare_type_shown_once (mc t : string) (values : list json) :
  values ≠ [] →
  Forall (λ v, v = JNull) values →
  _print_actions (map (mine mc t) values) (Some mc)
  = Ok (_section "Available Actions"
        ++ Stdout ("  " +:+ t)
           :: match _ACTION_HINTS !! t with
              | Some hint => [hint_line hint]
              | None => []
              end).
Proof.
  intros Hne Hnull. rewrite print_actions_one_type by done.
  unfold print_group.
  assert (forallb is_None values = true) as ->.
  { apply forallb_forall. intros v Hv%list_elem_of_In.
    by rewrite (proj1 (Forall_forall _ _) Hnull v Hv). }
  reflexivity.
Qed.

Lemma bare_type_shown_once_witness :
  _print_actions (map (mine "RED" "END_TIDE") [JNull; JNull; JNull]) (Some "RED")
  = Ok [Stdout (nl +:+ "--- Available Actions ---"); Stdout "  END_TIDE"].
Proof.
  refine (eq_trans (bare_type_shown_once "RED" "END_TIDE" [JNull; JNull; JNull] _ _) _).
  - discriminate.
  - repeat constructor.
  - vm_compute. reflexivity.
Defined.

(** ** Session helpers *)

Lemma rstrip_slash_spec (s : string) :
  ends_with_slash (rstrip_slash s) = false
  ∧ ∃ n, s = rstrip_slash s +:+ slashes n.
Proof.
  induction s as [|c s [IHend [n IHn]]]; simpl.
  - split; [reflexivity | by exists 0%nat].
  - destruct (rstrip_slash s) as [|d rest] eqn:Hr.
    + destruct (Ascii.eqb_spec c "/") as [->|Hne].
      * split; [reflexivity|]. exists (S n). simpl in *. by rewrite IHn.
      * split.
        -- simpl. by apply Ascii.eqb_neq.
        -- exists n. simpl in *. by rewrite IHn.
    + split.
      * exact IHend.
      * exists n. simpl in *. by rewrite IHn at 1.
Qed.

(** X18: the server URL [_base] returns never ends with a slash, so
    that appending a path that starts with one gives a single slash at
    the joint.  It is CLAWTAN_SERVER when that is set and not empty,
    else CLAWTAN_SERVER_URL when that is, else https://api.clawtan.com,
    with all trailing slashes (and nothing else) removed. *)
Theorem base_url (server server_url : option string) :
  ends_with_slash (_base server server_url) = false
  ∧ (∀ a, server = Some a → a ≠ "" →
       ∃ n, a = _base server server_url +:+ slashes n)
  ∧ (unset server → ∀ b, server_url = Some b → b ≠ "" →
       ∃ n, b = _base server server_url +:+ slashes n)
  ∧ (unset server → unset server_url →
       _base server server_url = "https://api.clawtan.com").
Proof.
  unfold _base. split; [apply rstrip_slash_spec|]. split; [|split].
  - intros a -> Ha. cbn [or_else].
    destruct (String.eqb_spec a ""); [done|]. cbn [or_else].
    destruct (String.eqb_spec a ""); [done|]. apply rstrip_slash_spec.
  - intros Hs b -> Hb.
    assert (or_else server (Some b) = Some b) as ->.
    { by destruct Hs as [-> | ->]. }
    cbn [or_else]. destruct (String.eqb_spec b ""); [done|].
    apply rstrip_slash_spec.
  - intros [-> | ->] [-> | ->]; reflexivity.
Qed.

Lemma base_url_witness :
  ends_with_slash (_base (Some "") (Some "http://localhost:8000//")) = false
  ∧ (∃ n, "http://localhost:8000//"
          = _base (Some "") (Some "http://localhost:8000//") +:+ slashes n)
  ∧ _base None None = "https://api.clawtan.com".
Proof.
  destruct (base_url (Some "") (Some "http://localhost:8000//"))
    as (Hend & _ & Hurl & _).
  destruct (base_url None None) as (_ & _ & _ & Hdefault).
  split; [exact Hend|]. split.
  - apply Hurl; [right; reflexivity | reflexivity | discriminate].
  - apply Hdefault; left; reflexivity.
Defined.

Example base_url_sample :
  _base (Some "") (Some "http://localhost:8000//") = "http://localhost:8000".
Proof. vm_compute. reflexivity. Qed.

(** X19: [_env] prefers the command-line value to the environment
    unless it is missing or empty.  A required setting that is missing
    or empty in both places ends the process with status 1 after one
    "ERROR: Missing ..." line, so a required value that is returned is
    never empty; a setting that is not required is returned as it is
    found. *)
Theorem env_value (name : string) (arg_val env_val : option string)
    (required : bool) :
  (∀ a, arg_val = Some a → a ≠ "" →
     _env name arg_val env_val required = ([], inl (Some a)))
  ∧ (unset arg_val → ∀ e, env_val = Some e → e ≠ "" →
       _env name arg_val env_val required = ([], inl (Some e)))
  ∧ (unset arg_val → unset env_val →
       _env name arg_val env_val true
       = ([Stderr ("ERROR: Missing " +:+ name +:+ ". Pass --" +:+ lower name
                   +:+ " or set CLAWTAN_" +:+ name)], inr 1)
       ∧ _env name arg_val env_val false = ([], inl env_val))
  ∧ (∀ v, (_env name arg_val env_val true).2 = inl v →
       ∃ s, v = Some s ∧ s ≠ "").
Proof.
  unfold _env. split; [|split; [|split]].
  - intros a -> Ha. cbn [or_else].
    destruct (String.eqb_spec a ""); [done|]. cbn [or_else].
    destruct (String.eqb_spec a ""); [done|]. by rewrite andb_false_r.
  - intros Ha e -> He.
    assert (or_else arg_val (Some e) = Some e) as ->.
    { by destruct Ha as [-> | ->]. }
    destruct (String.eqb_spec e ""); [done|]. by rewrite andb_false_r.
  - intros [-> | ->] [-> | ->]; split; reflexivity.
  - intros v. destruct (or_else arg_val env_val) as [s|]; simpl.
    + destruct (String.eqb_spec s ""); simpl; [done|].
      intros [= <-]. by exists s.
    + done.
Qed.

Lemma env_value_witness :
  _env "GAME" (Some "") (Some "g1") true = ([], inl (Some "g1"))
  ∧ _env "COLOR" None (Some "") true
    = ([Stderr "ERROR: Missing COLOR. Pass --color or set CLAWTAN_COLOR"], inr 1).
Proof.
  destruct (env_value "GAME" (Some "") (Some "g1") true) as (_ & Henv & _).
  destruct (env_value "COLOR" None (Some "") true) as (_ & _ & Hmissing & _).
  split.
  - apply Henv; [right; reflexivity | reflexivity | discriminate].
  - refine (eq_trans (proj1 (Hmissing _ _)) _).
    + left; reflexivity.
    + right; reflexivity.
    + vm_compute. reflexivity.
Defined.

(** ** The turn briefing *)

(** X20: the briefing shows the history that is new since the baseline
    taken before polling.  When the game had started by then, exactly
    the records appended since are shown (and no history section when
    there are none); when it had not, or when the first fetch failed,
    the baseline is zero and the whole history is shown. *)
Theorem briefing_shows_new_history (st0 : state_doc)
    (chat0 : option (list (gmap string json))) (recent records : list json) :
  let seen := action_records (core st0) in
  let history_len := (baseline (Some st0) chat0).1 in
  (truthy (get (top st0) "started") = true →
   briefing_history history_len seen = []
   ∧ (recent ≠ [] →
      briefing_history history_len (seen ++ recent)
      = _section ("Recent Actions (" +:+ pretty (Z.of_nat (length recent))
                  +:+ " moves)")
        ++ map (λ r, Stdout (history_line r)) recent))
  ∧ (truthy (get (top st0) "started") = false → records ≠ [] →
     briefing_history history_len records
     = _section ("Recent Actions (" +:+ pretty (Z.of_nat (length records))
                 +:+ " moves)")
       ++ map (λ r, Stdout (history_line r)) records)
  ∧ (records ≠ [] →
     briefing_history (baseline None chat0).1 records
     = _section ("Recent Actions (" +:+ pretty (Z.of_nat (length records))
                 +:+ " moves)")
       ++ map (λ r, Stdout (history_line r)) records).
Proof.
  intros seen history_len.
  assert (∀ records, records ≠ [] →
            briefing_history 0 records
            = _section ("Recent Actions (" +:+ pretty (Z.of_nat (length records))
                        +:+ " moves)")
              ++ map (λ r, Stdout (history_line r)) records) as Hall.
  { intros l Hl. unfold briefing_history.
    destruct l as [|r l]; [done|].
    destruct (Z.ltb_spec 0 (Z.of_nat (length (r :: l)))); [|simpl in *; lia].
    reflexivity. }
  assert (history_len
          = if truthy (get (top st0) "started")
            then Z.of_nat (length seen) else 0) as Hlen.
  { subst history_len. unfold baseline. by destruct chat0. }
  split; [|split].
  - intros Hstarted. rewrite Hstarted in Hlen. rewrite Hlen. split.
    + unfold briefing_history.
      destruct (Z.ltb_spec (Z.of_nat (length seen)) (Z.of_nat (length seen))); [lia|done].
    + intros Hne. unfold briefing_history. rewrite length_app.
      destruct (Z.ltb_spec (Z.of_nat (length seen))
                  (Z.of_nat (length seen + length recent))) as [_|Hge].
      * unfold _print_history. rewrite slice_from_app. by destruct recent.
      * destruct recent; [done | simpl in Hge; lia].
  - intros Hstarted Hne. rewrite Hstarted in Hlen. rewrite Hlen. by apply Hall.
  - destruct chat0; by apply Hall.
Qed.

Lemma briefing_shows_new_history_witness :
  briefing_history
    (baseline (Some (started_with (take 1 sample_records))) None).1
    sample_records
  = [Stdout (nl +:+ "--- Recent Actions (2 moves) ---");
     Stdout "  RED: BUILD_TIDE_POOL 12";
     Stdout "  RED: END_TIDE"].
Proof.
  destruct (briefing_shows_new_history (started_with (take 1 sample_records)) None
              (drop 1 sample_records) [])
    as ([_ Hnew] & _); [reflexivity|].
  refine (eq_trans (Hnew _) _); [discriminate|]. vm_compute. reflexivity.
Defined.

(** X21: the chat is best effort in the briefing: whatever the chat
    fetch yields (a failure, no message, messages, a malformed
    message) only changes the lines printed in the chat's own place.
    Everything before and after it is printed the same, and the chat
    can neither cause nor prevent a failure of the briefing. *)
Theorem chat_never_aborts_briefing (game_id color : string) (history_len : Z)
    (state : state_doc) (chat : option (list (gmap string json))) :
  briefing_chat None = [] ∧ briefing_chat (Some []) = []
  ∧ (∀ out, briefing game_id color history_len state chat = Ok out →
       ∃ before after,
         ∀ chat', briefing game_id color history_len state chat'
                  = Ok (before ++ briefing_chat chat' ++ after))
  ∧ (∀ e, briefing game_id color history_len state chat = Raise e →
       ∀ chat', briefing game_id color history_len state chat' = Raise e).
Proof.
  split; [reflexivity|]. split; [reflexivity|]. unfold briefing.
  destruct (match current_playable_actions state with
            | [] => Ok []
            | actions => _print_actions actions (Some color)
            end) as [shown|e]; cbn [mbind result_bind bind]; split; try done.
  intros out _.
  set (head := _header "YOUR TURN"
               ++ [Stdout ("  Game: " +:+ game_id);
                   Stdout ("  Turn: " +:+ str (get_or (top state) "num_turns" "?")
                           +:+ " | Prompt: "
                           +:+ str (get_or (top state) "current_prompt" "?"))]).
  set (status := match _my_status (core state) color with
                 | Some my => _print_my_status my
                 | None => []
                 end).
  set (opps := match _opponents (core state) color with
               | [] => []
               | _ => _print_opponents (_opponents (core state) color)
               end).
  set (history := briefing_history history_len (action_records (core state))).
  set (robber := if truthy (get (top state) "robber_coordinate")
                 then [Stdout (nl +:+ "  Robber: "
                               +:+ str (get (top state) "robber_coordinate"))]
                 else []).
  exists (head ++ status ++ opps ++ history), (shown ++ robber).
  intros chat'. f_equal. by rewrite <- !app_assoc.
Qed.

Lemma chat_never_aborts_briefing_witness :
  ∃ before after,
    ∀ chat', briefing "g1" "RED" 0 kraken_pending chat'
             = Ok (before ++ briefing_chat chat' ++ after).
Proof.
  destruct (chat_never_aborts_briefing "g1" "RED" 0 kraken_pending None)
    as (_ & _ & Hok & _).
  eapply Hok. vm_compute. reflexivity.
Defined.

(** ** After a submitted action *)

Lemma own_actions_app (color : string) (l1 l2 : list json) :
  own_actions color (l1 ++ l2) = own_actions color l1 ++ own_actions color l2.
Proof. unfold own_actions. apply List.filter_app. Qed.

Lemma split_agrees (color : string) (actions my other_colors : list json) :
  color ≠ "" →
  foldM (split_action (Some color)) (my, other_colors) actions
  = (others ← foldM (collect_other color) other_colors actions;
     Ok (my ++ own_actions color actions, others)).
Proof.
  intros Hcolor. revert my other_colors.
  induction actions as [|a actions IH]; intros my other_colors.
  - simpl. by rewrite app_nil_r.
  - pose proof (own_actions_app color [a] actions) as Happ.
    cbn [app] in Happ. rewrite Happ. clear Happ. cbn [foldM].
    assert (split_action (Some color) (my, other_colors) a
            = (others ← collect_other color other_colors a;
               Ok (my ++ own_actions color [a], others))) as ->.
    { unfold split_action, collect_other, own_actions, other_color.
      destruct (String.eqb_spec color ""); [done|]. cbn [negb andb].
      destruct a as [| | | |[|a0 [|a1 rest]]|]; cbn [List.filter belongs_to_other negb];
        try (by rewrite ?app_nil_r).
      destruct (truthy a0 && negb (eq_str a0 color)); cbn [negb].
      - destruct (hashable a0); [|done].
        cbn [mbind result_bind bind]. by rewrite app_nil_r.
      - reflexivity. }
    destruct (collect_other color other_colors a) as [others|e];
      cbn [mbind result_bind bind]; [|reflexivity].
    rewrite IH.
    destruct (foldM (collect_other color) others actions);
      cbn [mbind result_bind bind]; [|reflexivity].
    by rewrite <- app_assoc.
Qed.

(** X22: the two places that separate the agent's own actions from
    those of other colours agree: for a non-empty agent colour, the
    partition [_print_actions] makes is the list of own actions that
    [cmd_act] computes, together with the set of colours that
    [cmd_act] collects when it names the players still to act (and
    either both fail on an unhashable colour slot or neither does). *)
Theorem own_actions_agree (color : string) (actions : list json) :
  color ≠ "" →
  split_actions actions (Some color)
  = (others ← foldM (collect_other color) [] actions;
     Ok (own_actions color actions, others)).
Proof. intros Hcolor. exact (split_agrees color actions [] [] Hcolor). Qed.

Lemma own_actions_agree_witness :
  split_actions
    [mine "RED" "RELEASE_CATCH" JNull; mine "BLUE" "RELEASE_CATCH" JNull;
     JList [JNull; JStr "END_TIDE"]] (Some "RED")
  = Ok ([mine "RED" "RELEASE_CATCH" JNull; JList [JNull; JStr "END_TIDE"]],
        [JStr "BLUE"]).
Proof.
  refine (eq_trans (own_actions_agree "RED" _ _) _).
  - discriminate.
  - vm_compute. reflexivity.
Defined.

Lemma distinct_colors_nonempty (mc : string) (actions : list json) :
  actions ≠ [] →
  Forall (λ a, carries_other mc a = true) actions →
  distinct_colors actions ≠ [].
Proof.
  intros Hne Hall. destruct actions as [|a actions]; [done|].
  apply Forall_cons in Hall as [Ha _].
  destruct a as [| | | |[|[| | |c| |] [|atype rest]]|]; try discriminate.
  intros Hnil. assert (c ∈ distinct_colors (JList (JStr c :: atype :: rest) :: actions))
    as Hc.
  { unfold distinct_colors. rewrite add_strs_elem_of. right.
    apply list_elem_of_omap. eexists. split; [left | reflexivity]. }
  rewrite Hnil in Hc. by apply elem_of_nil in Hc.
Qed.

(** X23: when the accepted action leaves the agent without legal
    actions while another colour is current and the prompt is one of
    RELEASE_CATCH, MOVE_THE_KRAKEN and DISCARD, [cmd_act] reports a
    paused turn, not a passed one: it names the distinct colours the
    legal actions carry, in sorted order, with the prompt in lower
    case and spaces for underscores, and says that the turn is not
    over. *)
Theorem paused_turn_report (action color prompt : string) (detail : json)
    (state : state_doc) (pre_resources : option (gmap string (gmap string Z))) :
  color ≠ "" →
  action ≠ "ROLL_THE_SHELLS" →
  eq_str (get (top state) "current_color") color = false →
  top state !! "current_prompt" = Some (JStr prompt) →
  prompt ∈ interrupt_prompts →
  current_playable_actions state ≠ [] →
  Forall (λ a, carries_other color a = true) (current_playable_actions state) →
  cmd_act_report action color detail state pre_resources
  = Ok (_header ("ACTION OK: " +:+ action)
        ++ (if truthy detail then [Stdout ("  " +:+ str detail)] else [])
        ++ _section "Waiting on Other Players"
        ++ [Stdout ("  "
                    +:+ join ", " (sorted (distinct_colors
                                             (current_playable_actions state)))
                    +:+ " must " +:+ underscores_to_spaces (lower prompt)
                    +:+ " first.");
            Stdout (nl +:+ "  YOUR TURN IS NOT OVER. After they finish, you will continue"
                    +:+ " (e.g. move the Kraken, then play your turn)."
                    +:+ nl +:+ "  Run 'clawtan wait' to resume.")]).
Proof.
  intros Hcolor Haction Hcurrent Hprompt Hinterrupt Hne Hall.
  pose proof (split_agrees color (current_playable_actions state) [] [] Hcolor)
    as Hagree.
  pose proof (split_others color (current_playable_actions state) [] [] Hcolor Hall)
    as Hsplit.
  change (map JStr []) with (@nil json) in Hsplit.
  fold (distinct_colors (current_playable_actions state)) in Hsplit.
  rewrite Hsplit in Hagree.
  destruct (foldM (collect_other color) [] (current_playable_actions state))
    as [others|e] eqn:Hothers; [|discriminate].
  cbn [mbind result_bind bind app] in Hagree.
  injection Hagree as Hown Hset.
  pose proof (distinct_colors_nonempty color _ Hne Hall) as Hsome.
  unfold cmd_act_report.
  destruct (String.eqb_spec action "ROLL_THE_SHELLS"); [done|].
  cbn [mbind result_bind bind]. rewrite Hcurrent, <- Hown.
  unfold get_or. rewrite Hprompt. cbn [from_option id str].
  assert (existsb (eq_str (JStr prompt)) interrupt_prompts = true) as ->.
  { apply existsb_exists. exists prompt. split; [by apply list_elem_of_In|].
    apply String.eqb_refl. }
  rewrite Hothers, <- Hset. cbn [mbind result_bind bind].
  destruct (distinct_colors (current_playable_actions state)) as [|c cs] eqn:Hd;
    [done|].
  cbn [map]. unfold join_sorted.
  change (JStr c :: map JStr cs) with (map JStr (c :: cs)).
  rewrite as_strs_strs. reflexivity.
Qed.

Lemma paused_turn_report_witness :
  cmd_act_report "END_TIDE" "RED" JNull kraken_pending None
  = Ok [Stdout (nl +:+ "=== ACTION OK: END_TIDE ===");
        Stdout (nl +:+ "--- Waiting on Other Players ---");
        Stdout "  BLUE, WHITE must release catch first.";
        Stdout (nl +:+ "  YOUR TURN IS NOT OVER. After they finish, you will continue"
                +:+ " (e.g. move the Kraken, then play your turn)."
                +:+ nl +:+ "  Run 'clawtan wait' to resume.")].
Proof.
  refine (eq_trans (paused_turn_report "END_TIDE" "RED" "RELEASE_CATCH" JNull
                      kraken_pending None _ _ _ _ _ _ _) _).
  - discriminate.
  - discriminate.
  - reflexivity.
  - reflexivity.
  - left.
  - discriminate.
  - repeat constructor.
  - vm_compute. reflexivity.
Defined.
